(** * Cluster-autoscaler predicate checking: a shallow embedding

    The development follows three Go packages of the repository:
    - [utils/scheduler]  ([CreateNodeNameToInfoMap]),
    - [simulator]        ([SchedulerBasedPredicateChecker], [FitsAny],
                          [CheckPredicates], [SnapshotClusterState]),
    - [daemonset]        ([GetDaemonSetPodsForNode], [newPod]).

    Go maps are [gmap]s; the order in which a [range] loop visits a map is
    left open through the class [GoMapRange].  The scheduler framework, the
    listers and [math/rand] are libraries the packages import: they appear
    as interfaces (classes) whose methods the embedded code calls. *)

From stdpp Require Import gmap strings list fin_maps pretty.

Local Open Scope Z_scope.

(** ** Kubernetes API objects (the fields this code reads or writes) *)

Record ObjectMeta := mkObjectMeta {
  Name : string;
  Namespace : string;
  Labels : list (string * string)
}.

Record Toleration := mkToleration {
  Toleration_Key : string;
  Toleration_Effect : string
}.

Record Taint := mkTaint {
  Taint_Key : string;
  Taint_Value : string;
  Taint_Effect : string
}.

(** A label selector requirement and a required pod-affinity term, as the
    scheduler's inter-pod-affinity plugin reads them. *)
Inductive LabelSelectorOperator := OpIn | OpNotIn | OpExists | OpDoesNotExist.

Record LabelSelectorRequirement := mkLabelSelectorRequirement {
  Requirement_Key : string;
  Requirement_Operator : LabelSelectorOperator;
  Requirement_Values : list string
}.

Record PodAffinityTerm := mkPodAffinityTerm {
  Term_MatchExpressions : list LabelSelectorRequirement;
  Term_TopologyKey : string
}.

Record PodSpec := mkPodSpec {
  NodeName : string;
  Tolerations : list Toleration;
  HostPorts : list Z;
  MilliCPU : Z;
  PodAffinity : list PodAffinityTerm
}.

Record PodStatus := mkPodStatus {
  NominatedNodeName : string
}.

Record Pod := mkPod {
  Pod_ObjectMeta : ObjectMeta;
  Pod_Spec : PodSpec;
  Pod_Status : PodStatus
}.

Record NodeSpec := mkNodeSpec {
  Unschedulable : bool;
  Taints : list Taint
}.

Record Node := mkNode {
  Node_ObjectMeta : ObjectMeta;
  Node_Spec : NodeSpec;
  Node_AllocatableMilliCPU : Z
}.

Record PodTemplateSpec := mkPodTemplateSpec {
  Template_ObjectMeta : ObjectMeta;
  Template_Spec : PodSpec
}.

Record DaemonSet := mkDaemonSet {
  DaemonSet_ObjectMeta : ObjectMeta;
  DaemonSet_Template : PodTemplateSpec
}.

Definition Pod_Name (pod : Pod) : string := Name (Pod_ObjectMeta pod).
Definition Node_Name (node : Node) : string := Name (Node_ObjectMeta node).

(** ** The scheduler's NodeInfo

    [NodeInfo] belongs to the scheduler library.  Kept here: the node
    pointer (nil until [SetNode]) and the pod list, which are what this
    repository reads. *)

Record NodeInfo := mkNodeInfo {
  NodeInfo_Node : option Node;
  NodeInfo_Pods : list Pod
}.

Definition NewNodeInfo : NodeInfo := mkNodeInfo None [].

Definition AddPod (pod : Pod) (n : NodeInfo) : NodeInfo :=
  mkNodeInfo (NodeInfo_Node n) (NodeInfo_Pods n ++ [pod]).

Definition SetNode (node : Node) (n : NodeInfo) : NodeInfo :=
  mkNodeInfo (Some node) (NodeInfo_Pods n).

(** ** Iterating a Go map

    A [range] over a map visits every entry once, in an order the language
    does not fix. *)

Class GoMapRange := {
  goRange : ∀ {A : Type}, gmap string A → list (string * A);
  goRange_perm : ∀ (A : Type) (m : gmap string A), goRange m ≡ₚ map_to_list m
}.

#[export] Instance sortedRange : GoMapRange :=
  {| goRange := λ A m, map_to_list m;
     goRange_perm := λ A m, reflexivity (map_to_list m) |}.

Definition reversedRange : GoMapRange :=
  {| goRange := λ A m, reverse (map_to_list m);
     goRange_perm := λ A m, reverse_Permutation (map_to_list m) |}.

(** ** Package utils/scheduler *)

Module Scheduler.

Section WithRange.
Context {R : GoMapRange}.

(** The node a pod is filed under: its node name, else its nomination. *)
Definition podNodeName (pod : Pod) : string :=
  if decide (NodeName (Pod_Spec pod) = "")
  then NominatedNodeName (Pod_Status pod)
  else NodeName (Pod_Spec pod).

(** Body of the first loop (over pods). *)
Definition addPodToMap (m : gmap string NodeInfo) (pod : Pod) : gmap string NodeInfo :=
  let nodeName := podNodeName pod in
  let m1 := match m !! nodeName with
            | Some _ => m
            | None => <[nodeName := NewNodeInfo]> m
            end in
  alter (AddPod pod) nodeName m1.

(** Body of the second loop (over nodes). *)
Definition setNodeInMap (m : gmap string NodeInfo) (node : Node) : gmap string NodeInfo :=
  let m1 := match m !! Node_Name node with
            | Some _ => m
            | None => <[Node_Name node := NewNodeInfo]> m
            end in
  alter (SetNode node) (Node_Name node) m1.

Definition hasNoNode (kv : string * NodeInfo) : bool :=
  match NodeInfo_Node kv.2 with None => true | Some _ => false end.

(** Third loop: the keys of the entries whose [Node()] is nil. *)
Definition keysToRemove (m : gmap string NodeInfo) : list string :=
  (filter (λ kv, hasNoNode kv = true) (goRange m)).*1.

Definition CreateNodeNameToInfoMap (pods : list Pod) (nodes : list Node)
  : gmap string NodeInfo :=
  let withPods := foldl addPodToMap ∅ pods in
  let withNodes := foldl setNodeInMap withPods nodes in
  foldl (λ m key, delete key m) withNodes (keysToRemove withNodes).

(** Reading the result off the inputs: the pods filed under a key, in
    input order, and the node that ends up stored under a key (the last
    input node of that name). *)
Definition podsOn (key : string) (pods : list Pod) : list Pod :=
  filter (λ pod, podNodeName pod = key) pods.

Definition nodeNamed (key : string) (nodes : list Node) : option Node :=
  last (filter (λ node, Node_Name node = key) nodes).

End WithRange.
End Scheduler.

(** ** The scheduler framework, as the simulator package sees it

    Status codes and their accessors are the library's; a nil [*Status]
    behaves as a [Success] status without reasons. *)

Module scheduler_framework.

Inductive Code :=
  | StatusSuccess | StatusError | StatusUnschedulable
  | StatusUnschedulableAndUnresolvable | StatusWait | StatusSkip.

Record Status := mkStatus {
  Status_code : Code;
  Status_reasons : list string
}.

Definition IsSuccess (s : Status) : bool :=
  match Status_code s with StatusSuccess => true | _ => false end.

Definition IsUnschedulable (s : Status) : bool :=
  match Status_code s with
  | StatusUnschedulable | StatusUnschedulableAndUnresolvable => true
  | _ => false
  end.

Fixpoint strings_Join (elems : list string) (sep : string) : string :=
  match elems with
  | [] => ""
  | [e] => e
  | e :: rest => e +:+ sep +:+ strings_Join rest sep
  end.

Definition Message (s : Status) : string := strings_Join (Status_reasons s) ", ".
Definition Reasons (s : Status) : list string := Status_reasons s.

(** The two entry points this repository calls.  Plugins read the cluster
    through the shared lister handed to the framework when it was built,
    so both take the lister's current content; the pre-filter stage writes
    the cycle state that the filter stage reads.  [GoSyntax_Taints] stands
    for the rendering of a taint slice by [fmt]'s [%#v] verb. *)
Class Framework := {
  SharedLister : Type;
  NewEmptySnapshot : SharedLister;
  NewSnapshot : gmap string NodeInfo → SharedLister;
  CycleState : Type;
  NewCycleState : CycleState;
  RunPreFilterPlugins : SharedLister → CycleState → Pod → Status * CycleState;
  RunFilterPlugins : SharedLister → CycleState → Pod → NodeInfo → gmap string Status;
  GoSyntax_Taints : list Taint → string
}.

End scheduler_framework.

(** ** Package simulator *)

Module Simulator.
Import scheduler_framework.

(** Calls into the framework are recorded, so that how often and on which
    node a stage ran can be stated; a nil dereference aborts the call. *)
Inductive Call :=
  | PreFilterCall (pod : Pod)
  | FilterCall (pod : Pod) (nodeInfo : NodeInfo).

Inductive Outcome (A : Type) :=
  | Returned (a : A)
  | NilPointerPanic.
Arguments Returned {A} a.
Arguments NilPointerPanic {A}.

Definition Traced (A : Type) : Type := Outcome A * list Call.

#[export] Instance Traced_ret : MRet Traced := λ A a, (Returned a, []).

#[export] Instance Traced_bind : MBind Traced := λ A B f m,
  match m with
  | (Returned a, t1) => let '(o, t2) := f a in (o, (t1 ++ t2))
  | (NilPointerPanic, t1) => (NilPointerPanic, t1)
  end.

Definition deref {A} (p : option A) : Traced A :=
  match p with
  | Some a => mret a
  | None => (NilPointerPanic, [])
  end.

Definition outcome {A} (m : Traced A) : Outcome A := m.1.
Definition calls {A} (m : Traced A) : list Call := m.2.

Definition isPreFilterCall (c : Call) : bool :=
  match c with PreFilterCall _ => true | FilterCall _ _ => false end.

(** What a lister's [List(labels.Everything())] answers. *)
Inductive ListResult (A : Type) :=
  | Listed (items : list A)
  | ListFailed (err : string).
Arguments Listed {A} items.
Arguments ListFailed {A} err.

Inductive PredicateErrorType :=
  | NotSchedulablePredicateError
  | InternalPredicateError.

Record PredicateError := mkPredicateError {
  errorType : PredicateErrorType;
  predicateName : string;
  errorMessage : string;
  reasons : list string;
  debugInfo : string
}.

(** Modelled from the spec: [NewPredicateError], declared elsewhere in the
    simulator package.  A classified result carries the plugin name, a
    human-readable message, reason codes and an optional debug payload; the
    constructor stores what it is given. *)
Definition NewPredicateError (errorType : PredicateErrorType)
    (predicateName errorMessage : string) (reasons : list string)
    (debugInfo : string) : PredicateError :=
  mkPredicateError errorType predicateName errorMessage reasons debugInfo.

(** Modelled from the spec: [emptyString], declared elsewhere in the
    simulator package; a plugin without special-cased debug context
    attaches none. *)
Definition emptyString : string := "".

Section Checker.
Context {R : GoMapRange} {F : Framework}.

(** [CreateNodeInfoMap] is declared elsewhere in the simulator package and
    is taken as given. *)
Variable CreateNodeInfoMap : list Pod → list Node → gmap string NodeInfo.

Record DelegatingSchedulerSharedLister := mkDelegating {
  delegate : SharedLister
}.

Definition NewDelegatingSchedulerSharedLister (delegate : SharedLister) :=
  mkDelegating delegate.

Definition UpdateDelegate (lister : DelegatingSchedulerSharedLister)
    (delegate : SharedLister) : DelegatingSchedulerSharedLister :=
  mkDelegating delegate.

(** The framework keeps the pointer to the delegating lister it was built
    with; the checker's field is that same object, so the record below is
    the one store both read.  The two lister fields hold what the informer
    caches answer to [List] at the time of the call. *)
Record SchedulerBasedPredicateChecker := mkChecker {
  delegatingSharedLister : DelegatingSchedulerSharedLister;
  nodeLister : ListResult Node;
  podLister : ListResult Pod
}.

Definition framework_RunPreFilterPlugins (p : SchedulerBasedPredicateChecker)
    (state : CycleState) (pod : Pod) : Traced (Status * CycleState) :=
  (Returned (RunPreFilterPlugins (delegate (delegatingSharedLister p)) state pod),
   [PreFilterCall pod]).

Definition framework_RunFilterPlugins (p : SchedulerBasedPredicateChecker)
    (state : CycleState) (pod : Pod) (nodeInfo : NodeInfo)
  : Traced (gmap string Status) :=
  (Returned (RunFilterPlugins (delegate (delegatingSharedLister p)) state pod nodeInfo),
   [FilterCall pod nodeInfo]).

Definition SnapshotClusterState (p : SchedulerBasedPredicateChecker)
  : SchedulerBasedPredicateChecker * option string :=
  match nodeLister p with
  | ListFailed err => (p, Some ("could not list Nodes; " +:+ err))
  | Listed nodes =>
    match podLister p with
    | ListFailed err => (p, Some ("could not list Pods; " +:+ err))
    | Listed pods =>
      let nodeInfoMap := CreateNodeInfoMap pods nodes in
      let newSnapshot := NewSnapshot nodeInfoMap in
      (mkChecker (UpdateDelegate (delegatingSharedLister p) newSnapshot)
                 (nodeLister p) (podLister p),
       None)
    end
  end.

(** The inner loop of [FitsAny]: [ok] stays true unless a status fails. *)
Fixpoint allSucceed (filterStatuses : list (string * Status)) : bool :=
  match filterStatuses with
  | [] => true
  | (_, filterStatus) :: rest =>
    if negb (IsSuccess filterStatus) then false else allSucceed rest
  end.

Definition noFitError (pod : Pod) : string :=
  "cannot put pod " +:+ Pod_Name pod +:+ " on any node".

Definition preFilterError (pod : Pod) (preFilterStatus : Status) : string :=
  "error running pre filter plugins for pod " +:+ Pod_Name pod +:+ "; "
    +:+ Message preFilterStatus.

Fixpoint FitsAny_range (p : SchedulerBasedPredicateChecker) (state : CycleState)
    (pod : Pod) (entries : list (string * NodeInfo)) : Traced (string * option string) :=
  match entries with
  | [] => mret ("", Some (noFitError pod))
  | (name, nodeInfo) :: rest =>
    node ← deref (NodeInfo_Node nodeInfo) ;
    if Unschedulable (Node_Spec node) then FitsAny_range p state pod rest
    else
      filterStatuses ← framework_RunFilterPlugins p state pod nodeInfo ;
      if allSucceed (goRange filterStatuses) then mret (name, None)
      else FitsAny_range p state pod rest
  end.

Definition FitsAny (p : SchedulerBasedPredicateChecker) (pod : Pod)
    (nodeInfos : gmap string NodeInfo) : Traced (string * option string) :=
  ' (preFilterStatus, state) ← framework_RunPreFilterPlugins p NewCycleState pod ;
  if negb (IsSuccess preFilterStatus)
  then mret ("", Some (preFilterError pod preFilterStatus))
  else FitsAny_range p state pod (goRange nodeInfos).

Definition buildDebugInfo (filterName : string) (nodeInfo : NodeInfo) : Traced string :=
  if decide (filterName = "TaintToleration") then
    node ← deref (NodeInfo_Node nodeInfo) ;
    let taints := Taints (Node_Spec node) in
    mret ("taints on node: " +:+ GoSyntax_Taints taints)
  else mret emptyString.

Fixpoint CheckPredicates_range (filterStatuses : list (string * Status))
    (nodeInfo : NodeInfo) : Traced (option PredicateError) :=
  match filterStatuses with
  | [] => mret None
  | (filterName, filterStatus) :: rest =>
    if negb (IsSuccess filterStatus) then
      if IsUnschedulable filterStatus then
        debug ← buildDebugInfo filterName nodeInfo ;
        mret (Some (NewPredicateError NotSchedulablePredicateError filterName
                      (Message filterStatus) (Reasons filterStatus) debug))
      else
        debug ← buildDebugInfo filterName nodeInfo ;
        mret (Some (NewPredicateError InternalPredicateError filterName
                      (Message filterStatus) (Reasons filterStatus) debug))
    else CheckPredicates_range rest nodeInfo
  end.

Definition CheckPredicates (p : SchedulerBasedPredicateChecker) (pod : Pod)
    (nodeInfo : NodeInfo) : Traced (option PredicateError) :=
  ' (preFilterStatus, state) ← framework_RunPreFilterPlugins p NewCycleState pod ;
  if negb (IsSuccess preFilterStatus)
  then mret (Some (NewPredicateError InternalPredicateError ""
                     (Message preFilterStatus) (Reasons preFilterStatus) emptyString))
  else
    filterStatuses ← framework_RunFilterPlugins p state pod nodeInfo ;
    CheckPredicates_range (goRange filterStatuses) nodeInfo.

(** Vocabulary for the properties: what the pre-check stage answers for a
    pod, that the framework reports no failing filter for a node, and that
    a candidate carries a node which is not marked unschedulable. *)
Definition preFilterResult (p : SchedulerBasedPredicateChecker) (pod : Pod)
  : Status * CycleState :=
  RunPreFilterPlugins (delegate (delegatingSharedLister p)) NewCycleState pod.

Definition everyFilterPasses (p : SchedulerBasedPredicateChecker)
    (state : CycleState) (pod : Pod) (nodeInfo : NodeInfo) : Prop :=
  ∀ filterName filterStatus,
    RunFilterPlugins (delegate (delegatingSharedLister p)) state pod nodeInfo
      !! filterName = Some filterStatus →
    IsSuccess filterStatus = true.

Definition isSchedulable (nodeInfo : NodeInfo) : Prop :=
  ∃ node, NodeInfo_Node nodeInfo = Some node ∧ Unschedulable (Node_Spec node) = false.

(** The first property of section 8 of the specification, as it is
    worded there. *)
Definition fitsAny_iff_some_node_fits (p : SchedulerBasedPredicateChecker)
    (pod : Pod) (nodeInfos : gmap string NodeInfo) : Prop :=
  ((∃ name, outcome (FitsAny p pod nodeInfos) = Returned (name, None)) ↔
   (∃ name nodeInfo, nodeInfos !! name = Some nodeInfo
                     ∧ outcome (CheckPredicates p pod nodeInfo) = Returned None))
  ∧ ((∀ name nodeInfo, nodeInfos !! name = Some nodeInfo →
        outcome (CheckPredicates p pod nodeInfo) ≠ Returned None) →
     outcome (FitsAny p pod nodeInfos) = Returned ("", Some (noFitError pod))).

End Checker.
End Simulator.

(** ** Package daemonset *)

Module Daemonset.
Import Simulator.

(** [math/rand]: the process-wide generator.  [Int63] returns a
    non-negative 63-bit integer and advances the generator. *)
Class RandSource := {
  RandState : Type;
  Int63 : RandState → Z * RandState;
  Int63_range : ∀ s, 0 ≤ (Int63 s).1 < 2 ^ 63
}.

(** The simulator interfaces this package is handed.  [ClusterSnapshot],
    [NewBasicClusterSnapshot], [AddNodeWithPods] and
    [FakeNodeInfoForNodeName] are declared elsewhere in the simulator
    package; [PredicateChecker] is a Go interface. *)
Class PredicateChecker := {
  ClusterSnapshot : Type;
  NewBasicClusterSnapshot : ClusterSnapshot;
  AddNodeWithPods : ClusterSnapshot → option Node → list Pod → ClusterSnapshot * option string;
  FakeNodeInfoForNodeName : string → NodeInfo;
  CheckPredicates : ClusterSnapshot → Pod → NodeInfo → option PredicateError
}.

Section WithRand.
Context {RS : RandSource}.

(** Code that draws random numbers: the generator state is threaded, and
    a nil dereference aborts. *)
Definition Rand (A : Type) : Type := RandState → Outcome A * RandState.

#[export] Instance Rand_ret : MRet Rand := λ A a s, (Returned a, s).

#[export] Instance Rand_bind : MBind Rand := λ A B f m s,
  match m s with
  | (Returned a, s') => f a s'
  | (NilPointerPanic, s') => (NilPointerPanic, s')
  end.

Definition rand_Int63 : Rand Z := λ s, let '(n, s') := Int63 s in (Returned n, s').

Definition node_of (nodeInfo : NodeInfo) : Rand Node := λ s,
  match NodeInfo_Node nodeInfo with
  | Some node => (Returned node, s)
  | None => (NilPointerPanic, s)
  end.

Definition set_Namespace (pod : Pod) (ns : string) : Pod :=
  mkPod (mkObjectMeta (Name (Pod_ObjectMeta pod)) ns (Labels (Pod_ObjectMeta pod)))
        (Pod_Spec pod) (Pod_Status pod).

Definition set_Name (pod : Pod) (name : string) : Pod :=
  mkPod (mkObjectMeta name (Namespace (Pod_ObjectMeta pod)) (Labels (Pod_ObjectMeta pod)))
        (Pod_Spec pod) (Pod_Status pod).

Definition set_NodeName (spec : PodSpec) (nodeName : string) : PodSpec :=
  mkPodSpec nodeName (Tolerations spec) (HostPorts spec) (MilliCPU spec)
            (PodAffinity spec).

Definition set_Spec_NodeName (pod : Pod) (nodeName : string) : Pod :=
  mkPod (Pod_ObjectMeta pod) (set_NodeName (Pod_Spec pod) nodeName) (Pod_Status pod).

(** [fmt.Sprintf("%s-pod-%d", name, n)] *)
Definition podNameFor (name : string) (n : Z) : string :=
  name +:+ "-pod-" +:+ pretty n.

Definition newPod (ds : DaemonSet) (nodeName : string) : Rand Pod :=
  let newPod := mkPod (Template_ObjectMeta (DaemonSet_Template ds))
                      (Template_Spec (DaemonSet_Template ds))
                      (mkPodStatus "") in
  let newPod := set_Namespace newPod (Namespace (DaemonSet_ObjectMeta ds)) in
  n ← rand_Int63;
  let newPod := set_Name newPod (podNameFor (Name (DaemonSet_ObjectMeta ds)) n) in
  let newPod := set_Spec_NodeName newPod nodeName in
  mret newPod.

Context {P : PredicateChecker}.

Fixpoint GetDaemonSetPodsForNode_range (clusterSnapshot : ClusterSnapshot)
    (nodeInfo : NodeInfo) (daemonsets : list DaemonSet) (result : list Pod)
  : Rand (list Pod) :=
  match daemonsets with
  | [] => mret result
  | ds :: rest =>
    node ← node_of nodeInfo;
    pod ← newPod ds (Node_Name node);
    node' ← node_of nodeInfo;
    match CheckPredicates clusterSnapshot pod (FakeNodeInfoForNodeName (Node_Name node')) with
    | None => GetDaemonSetPodsForNode_range clusterSnapshot nodeInfo rest (result ++ [pod])
    | Some _ => GetDaemonSetPodsForNode_range clusterSnapshot nodeInfo rest result
    end
  end.

Definition GetDaemonSetPodsForNode (nodeInfo : NodeInfo) (daemonsets : list DaemonSet)
  : Rand (list Pod * option string) :=
  let result := [] in
  let '(clusterSnapshot, err) :=
    AddNodeWithPods NewBasicClusterSnapshot (NodeInfo_Node nodeInfo) (NodeInfo_Pods nodeInfo) in
  match err with
  | Some e => mret ([], Some e)
  | None =>
    result ← GetDaemonSetPodsForNode_range clusterSnapshot nodeInfo daemonsets result;
    mret (result, None)
  end.

(** What the spec asks of a synthetic workload, written out: the pod
    template's metadata and spec, the daemonset's namespace, the name built
    from the drawn number [n], and the node name pinned. *)
Definition syntheticPod (ds : DaemonSet) (nodeName : string) (n : Z) : Pod :=
  let template := DaemonSet_Template ds in
  mkPod (mkObjectMeta (podNameFor (Name (DaemonSet_ObjectMeta ds)) n)
                      (Namespace (DaemonSet_ObjectMeta ds))
                      (Labels (Template_ObjectMeta template)))
        (mkPodSpec nodeName (Tolerations (Template_Spec template))
                   (HostPorts (Template_Spec template))
                   (MilliCPU (Template_Spec template))
                   (PodAffinity (Template_Spec template)))
        (mkPodStatus "").

(** One synthetic pod per daemonset, in order, drawing one number each. *)
Fixpoint synthesize (daemonsets : list DaemonSet) (nodeName : string) (s : RandState)
  : list Pod :=
  match daemonsets with
  | [] => []
  | ds :: rest =>
    let '(n, s') := Int63 s in
    syntheticPod ds nodeName n :: synthesize rest nodeName s'
  end.

(** The generator state after [k] further draws made elsewhere in the
    process. *)
Fixpoint draws (k : nat) (s : RandState) : RandState :=
  match k with
  | O => s
  | S k' => draws k' (Int63 s).2
  end.

(** Whether the checker reports a fit for a pod on the named node. *)
Definition fitsNode (clusterSnapshot : ClusterSnapshot) (nodeName : string)
    (pod : Pod) : bool :=
  match CheckPredicates clusterSnapshot pod (FakeNodeInfoForNodeName nodeName) with
  | None => true
  | Some _ => false
  end.

(** The guarantee the specification asks of identity generation, as it is
    worded there: any two synthesis calls for one daemonset in a process,
    however many draws lie between them, produce different names. *)
Definition names_never_collide : Prop :=
  ∀ ds nodeName nodeName' s k pod pod' s' s'',
    newPod ds nodeName s = (Returned pod, s') →
    newPod ds nodeName' (draws k s') = (Returned pod', s'') →
    Pod_Name pod ≠ Pod_Name pod'.

(** What the specification says of one run of the simulator, as it is
    worded there: a list is returned; one workload was synthesized per
    daemonset, with the daemonset's namespace, its pod template's spec
    pinned to the node, and a fresh name (no two synthesized workloads
    share one); and the list holds exactly the synthesized workloads the
    checker accepts on the node. *)
Definition simulation_as_worded (nodeInfo : NodeInfo) (daemonsets : list DaemonSet)
    (s : RandState) : Prop :=
  ∃ node pods,
    NodeInfo_Node nodeInfo = Some node
    ∧ Forall2 (λ ds pod,
         Namespace (Pod_ObjectMeta pod) = Namespace (DaemonSet_ObjectMeta ds)
         ∧ Pod_Spec pod
           = set_NodeName (Template_Spec (DaemonSet_Template ds)) (Node_Name node))
       daemonsets pods
    ∧ NoDup (Pod_Name <$> pods)
    ∧ (GetDaemonSetPodsForNode nodeInfo daemonsets s).1
      = Returned
          (filter (λ pod,
             CheckPredicates
               (AddNodeWithPods NewBasicClusterSnapshot (NodeInfo_Node nodeInfo)
                  (NodeInfo_Pods nodeInfo)).1
               pod (FakeNodeInfoForNodeName (Node_Name node)) = None) pods,
           None).

End WithRand.
End Daemonset.

(** ** Package utils/scheduler: resources, template copies, configuration *)

Module SchedulerResources.

(** [resource.Quantity] as the two constructors used here build it: an
    integer amount at a decimal scale ([NewQuantity] at scale 0,
    [NewMilliQuantity] at scale -3) with a display format. *)
Inductive Format := DecimalSI | BinarySI.

Record Quantity := mkQuantity {
  Quantity_value : Z;
  Quantity_scale : Z;
  Quantity_format : Format
}.

Definition NewQuantity (value : Z) (format : Format) : Quantity :=
  mkQuantity value 0 format.

Definition NewMilliQuantity (value : Z) (format : Format) : Quantity :=
  mkQuantity value (-3) format.

(** The scheduler's [Resource]. *)
Record Resource := mkResource {
  Resource_MilliCPU : Z;
  Resource_Memory : Z;
  Resource_EphemeralStorage : Z;
  Resource_AllowedPodNumber : Z;
  Resource_ScalarResources : gmap string Z
}.

(** Resource names of the core API. *)
Definition ResourceCPU : string := "cpu".
Definition ResourceMemory : string := "memory".
Definition ResourcePods : string := "pods".
Definition ResourceEphemeralStorage : string := "ephemeral-storage".
Definition ResourceHugePagesPrefix : string := "hugepages-".

Definition isHugePageResourceName (name : string) : bool :=
  String.prefix ResourceHugePagesPrefix name.

Section WithRange.
Context {R : GoMapRange}.

(** Body of the loop over [r.ScalarResources]. *)
Definition setScalar (result : gmap string Quantity) (entry : string * Z)
  : gmap string Quantity :=
  let '(rName, rQuant) := entry in
  if isHugePageResourceName rName
  then <[rName := NewQuantity rQuant BinarySI]> result
  else <[rName := NewQuantity rQuant DecimalSI]> result.

Definition ResourceToResourceList (r : Resource) : gmap string Quantity :=
  let result : gmap string Quantity :=
    {[ ResourceCPU := NewMilliQuantity (Resource_MilliCPU r) DecimalSI;
       ResourceMemory := NewQuantity (Resource_Memory r) BinarySI;
       ResourcePods := NewQuantity (Resource_AllowedPodNumber r) BinarySI;
       ResourceEphemeralStorage := NewQuantity (Resource_EphemeralStorage r) BinarySI ]} in
  foldl setScalar result (goRange (Resource_ScalarResources r)).

End WithRange.

(** The quantity a scalar resource is listed with. *)
Definition scalarQuantity (rName : string) (rQuant : Z) : Quantity :=
  NewQuantity rQuant (if isHugePageResourceName rName then BinarySI else DecimalSI).

(** The four entries of the map literal. *)
Definition basicQuantity (r : Resource) (name : string) : option Quantity :=
  if decide (name = ResourceCPU)
  then Some (NewMilliQuantity (Resource_MilliCPU r) DecimalSI)
  else if decide (name = ResourceMemory)
  then Some (NewQuantity (Resource_Memory r) BinarySI)
  else if decide (name = ResourcePods)
  then Some (NewQuantity (Resource_AllowedPodNumber r) BinarySI)
  else if decide (name = ResourceEphemeralStorage)
  then Some (NewQuantity (Resource_EphemeralStorage r) BinarySI)
  else None.

End SchedulerResources.

Module SchedulerTemplates.
Import Simulator.

(** [uuid.NewUUID]: a generator of identifiers. *)
Class UUIDSource := {
  UUIDState : Type;
  NewUUID : UUIDState → string * UUIDState
}.

(** [DeepCopyTemplateNode] also writes the UID of the objects it copies;
    here an object travels with its UID, and a node info holds such
    objects. *)
Record WithUID (A : Type) := mkWithUID {
  object : A;
  UID : string
}.
Arguments mkWithUID {A} object UID.
Arguments object {A} w.
Arguments UID {A} w.

Record TemplateNodeInfo := mkTemplateNodeInfo {
  Template_Node : option (WithUID Node);
  Template_Pods : list (WithUID Pod)
}.

Definition NewTemplateNodeInfo : TemplateNodeInfo := mkTemplateNodeInfo None [].

Definition Template_SetNode (node : WithUID Node) (n : TemplateNodeInfo) : TemplateNodeInfo :=
  mkTemplateNodeInfo (Some node) (Template_Pods n).

Definition Template_AddPod (pod : WithUID Pod) (n : TemplateNodeInfo) : TemplateNodeInfo :=
  mkTemplateNodeInfo (Template_Node n) (Template_Pods n ++ [pod]).

(** [fmt.Sprintf("%s-%s", name, suffix)] *)
Definition suffixed (name suffix : string) : string := name +:+ "-" +:+ suffix.

Definition Node_set_Name (node : Node) (name : string) : Node :=
  mkNode (mkObjectMeta name (Namespace (Node_ObjectMeta node)) (Labels (Node_ObjectMeta node)))
         (Node_Spec node) (Node_AllocatableMilliCPU node).

(** [node.Labels[key] = value], the label list read as a Go map (a nil map
    is made first; both are the empty list). *)
Definition Node_set_Label (node : Node) (key value : string) : Node :=
  let labels : gmap string string := list_to_map (Labels (Node_ObjectMeta node)) in
  mkNode (mkObjectMeta (Name (Node_ObjectMeta node)) (Namespace (Node_ObjectMeta node))
                       (map_to_list (<[key := value]> labels)))
         (Node_Spec node) (Node_AllocatableMilliCPU node).

Definition Pod_set_Name (pod : Pod) (name : string) : Pod :=
  mkPod (mkObjectMeta name (Namespace (Pod_ObjectMeta pod)) (Labels (Pod_ObjectMeta pod)))
        (Pod_Spec pod) (Pod_Status pod).

(** The copy made of one pod of the template, given the UID drawn for
    it. *)
Definition renamedPod (suffix : string) (podInfo : WithUID Pod) (uid : string)
  : WithUID Pod :=
  mkWithUID (Pod_set_Name (object podInfo) (suffixed (Pod_Name (object podInfo)) suffix))
            uid.

Section WithUUID.
Context {U : UUIDSource}.

(** Code that draws identifiers: the generator state is threaded, and a
    nil dereference aborts. *)
Definition Gen (A : Type) : Type := UUIDState → Outcome A * UUIDState.

#[export] Instance Gen_ret : MRet Gen := λ A a s, (Returned a, s).

#[export] Instance Gen_bind : MBind Gen := λ A B f m s,
  match m s with
  | (Returned a, s') => f a s'
  | (NilPointerPanic, s') => (NilPointerPanic, s')
  end.

Definition uuid_NewUUID : Gen string := λ s,
  let '(uid, s') := NewUUID s in (Returned uid, s').

Definition nonNil {A} (p : option A) : Gen A := λ s,
  match p with
  | Some a => (Returned a, s)
  | None => (NilPointerPanic, s)
  end.

(** The loop over [nodeTemplate.Pods]. *)
Fixpoint copyPods (podInfos : list (WithUID Pod)) (suffix : string)
    (nodeInfo : TemplateNodeInfo) : Gen TemplateNodeInfo :=
  match podInfos with
  | [] => mret nodeInfo
  | podInfo :: rest =>
    let pod := object podInfo in
    let pod := Pod_set_Name pod (suffixed (Pod_Name (object podInfo)) suffix) in
    uid ← uuid_NewUUID;
    copyPods rest suffix (Template_AddPod (mkWithUID pod uid) nodeInfo)
  end.

Definition DeepCopyTemplateNode (nodeTemplate : TemplateNodeInfo) (suffix : string)
  : Gen TemplateNodeInfo :=
  template ← nonNil (Template_Node nodeTemplate);
  let node := object template in
  let node := Node_set_Name node (suffixed (Node_Name node) suffix) in
  uid ← uuid_NewUUID;
  let node := Node_set_Label node "kubernetes.io/hostname" (Node_Name node) in
  let nodeInfo := NewTemplateNodeInfo in
  let nodeInfo := Template_SetNode (mkWithUID node uid) nodeInfo in
  copyPods (Template_Pods nodeTemplate) suffix nodeInfo.

(** The identifiers of [k] consecutive draws, and the state they leave. *)
Fixpoint uuids (k : nat) (s : UUIDState) : list string :=
  match k with
  | O => []
  | S k' => (NewUUID s).1 :: uuids k' (NewUUID s).2
  end.

Fixpoint uuidsAfter (k : nat) (s : UUIDState) : UUIDState :=
  match k with
  | O => s
  | S k' => uuidsAfter k' (NewUUID s).2
  end.

End WithUUID.
End SchedulerTemplates.

Module SchedulerConfig.
Import Simulator.

Definition schedulerConfigDecodeErr : string := "couldn't decode scheduler config".
Definition schedulerConfigLoadErr : string := "couldn't load scheduler config".
Definition schedulerConfigTypeCastErr : string :=
  "couldn't assert type as KubeSchedulerConfiguration".
Definition schedulerConfigInvalidErr : string := "invalid KubeSchedulerConfiguration".

(** The types the scheme library brings: the body of a scheduler
    configuration (all but its type meta), the objects of other types the
    decoder may yield, and group-version-kinds. *)
Class SchemeTypes := {
  ConfigBody : Type;
  OtherObject : Type;
  GroupVersionKind : Type
}.

(** A library call that returns a value or an error (kept as its
    message). *)
Inductive Result (A : Type) :=
  | Ok (a : A)
  | Failed (err : string).
Arguments Ok {A} a.
Arguments Failed {A} err.

Section WithTypes.
Context {T : SchemeTypes}.

Record KubeSchedulerConfiguration := mkKubeSchedulerConfiguration {
  TypeMeta_APIVersion : string;
  Config_Body : ConfigBody
}.

Inductive Object :=
  | ConfigObject (cfg : KubeSchedulerConfiguration)
  | ForeignObject (obj : OtherObject).

(** What [ConfigFromPath] calls: the file system, the scheme's universal
    decoder (which on success names the group-version-kind it found), the
    two renderings of a group-version-kind, and the validation of a
    configuration. *)
Class ConfigLib := {
  os_ReadFile : string → Result (list Byte.byte);
  Decode : list Byte.byte → Result (Object * GroupVersionKind);
  GroupVersion_String : GroupVersionKind → string;
  GroupVersionKind_String : GroupVersionKind → string;
  ValidateKubeSchedulerConfiguration : KubeSchedulerConfiguration → option string
}.

Context {L : ConfigLib}.

Definition set_APIVersion (cfg : KubeSchedulerConfiguration) (apiVersion : string)
  : KubeSchedulerConfiguration :=
  mkKubeSchedulerConfiguration apiVersion (Config_Body cfg).

Definition ConfigFromPath (path : string)
  : option KubeSchedulerConfiguration * option string :=
  match os_ReadFile path with
  | Failed err => (None, Some (schedulerConfigLoadErr +:+ ": " +:+ err))
  | Ok data =>
    match Decode data with
    | Failed err => (None, Some (schedulerConfigDecodeErr +:+ ": " +:+ err))
    | Ok (obj, gvk) =>
      match obj with
      | ForeignObject _ =>
        (None, Some (schedulerConfigTypeCastErr +:+ ", gvk: " +:+ GroupVersionKind_String gvk))
      | ConfigObject cfgObj =>
        let cfgObj := set_APIVersion cfgObj (GroupVersion_String gvk) in
        match ValidateKubeSchedulerConfiguration cfgObj with
        | Some err => (None, Some (schedulerConfigInvalidErr +:+ ": " +:+ err))
        | None => (Some cfgObj, None)
        end
      end
    end
  end.

(** The stage at which loading a configuration can stop, and the stage
    an error message names by the constant it starts with. *)
Inductive Stage := LoadStage | DecodeStage | TypeCastStage | ValidationStage.

Definition stageOfMessage (message : string) : option Stage :=
  if String.prefix schedulerConfigLoadErr message then Some LoadStage
  else if String.prefix schedulerConfigDecodeErr message then Some DecodeStage
  else if String.prefix schedulerConfigTypeCastErr message then Some TypeCastStage
  else if String.prefix schedulerConfigInvalidErr message then Some ValidationStage
  else None.

End WithTypes.
End SchedulerConfig.

(** ** Package simulator: reading a run of [FitsAny] and [CheckPredicates] *)

Module SimulatorViews.
Import scheduler_framework Simulator.

Section Views.
Context {R : GoMapRange} {F : Framework}.

Definition schedulableb (nodeInfo : NodeInfo) : bool :=
  match NodeInfo_Node nodeInfo with
  | Some node => negb (Unschedulable (Node_Spec node))
  | None => false
  end.

(** The filter calls made while passing over a stretch of candidates: one
    for each candidate that is schedulable, in order. *)
Definition filterCallsOn (pod : Pod) (entries : list (string * NodeInfo)) : list Call :=
  (λ e, FilterCall pod e.2) <$> filter (λ e, schedulableb e.2 = true) entries.

(** A candidate the loop of [FitsAny] moves past: it carries a Node, and is
    marked unschedulable or fails some filter. *)
Definition passedOver (p : SchedulerBasedPredicateChecker) (state : CycleState)
    (pod : Pod) (entry : string * NodeInfo) : Prop :=
  is_Some (NodeInfo_Node entry.2)
  ∧ ¬ (isSchedulable entry.2 ∧ everyFilterPasses p state pod entry.2).

(** The rejection [CheckPredicates] builds for a failing status. *)
Definition rejectionOf (filterName : string) (filterStatus : Status) (debug : string)
  : PredicateError :=
  NewPredicateError
    (if IsUnschedulable filterStatus then NotSchedulablePredicateError
     else InternalPredicateError)
    filterName (Message filterStatus) (Reasons filterStatus) debug.

End Views.
End SimulatorViews.

(** ** A concrete plugin chain, generator and cluster

    Instances of the interfaces above on which the embedded functions can
    be run: three filter plugins evaluated in registration order, the first
    rejection ending the chain, and a pre-filter stage that refuses pods
    with a negative CPU request. *)

Module Instances.
Import scheduler_framework Simulator Daemonset.

Record FilterPlugin := mkFilterPlugin {
  plugin_Name : string;
  plugin_Filter : Pod → NodeInfo → Status
}.

Definition ok : Status := mkStatus StatusSuccess [].

Definition podsMilliCPU (pods : list Pod) : Z :=
  foldr (λ pod acc, MilliCPU (Pod_Spec pod) + acc) 0 pods.

Definition nodeResourcesFit : FilterPlugin :=
  mkFilterPlugin "NodeResourcesFit" (λ pod nodeInfo,
    match NodeInfo_Node nodeInfo with
    | None => mkStatus StatusError ["node not found"]
    | Some node =>
      if decide (podsMilliCPU (NodeInfo_Pods nodeInfo) + MilliCPU (Pod_Spec pod)
                 ≤ Node_AllocatableMilliCPU node)
      then ok else mkStatus StatusUnschedulable ["Insufficient cpu"]
    end).

Definition tolerates (tolerations : list Toleration) (taint : Taint) : bool :=
  existsb (λ t, bool_decide (Toleration_Key t = Taint_Key taint)
                && (bool_decide (Toleration_Effect t = "")
                    || bool_decide (Toleration_Effect t = Taint_Effect taint)))
          tolerations.

Definition taintToleration : FilterPlugin :=
  mkFilterPlugin "TaintToleration" (λ pod nodeInfo,
    match NodeInfo_Node nodeInfo with
    | None => mkStatus StatusError ["invalid nodeInfo"]
    | Some node =>
      if forallb (tolerates (Tolerations (Pod_Spec pod))) (Taints (Node_Spec node))
      then ok
      else mkStatus StatusUnschedulableAndUnresolvable
                    ["node(s) had taints that the pod didn't tolerate"]
    end).

Definition usedPorts (pods : list Pod) : list Z :=
  concat (map (λ pod, HostPorts (Pod_Spec pod)) pods).

Definition nodePorts : FilterPlugin :=
  mkFilterPlugin "NodePorts" (λ pod nodeInfo,
    if existsb (λ port, bool_decide (port ∈ usedPorts (NodeInfo_Pods nodeInfo)))
               (HostPorts (Pod_Spec pod))
    then mkStatus StatusUnschedulable ["node(s) didn't have free ports for the requested pod ports"]
    else ok).

Fixpoint runChain (plugins : list FilterPlugin) (pod : Pod) (nodeInfo : NodeInfo)
  : gmap string Status :=
  match plugins with
  | [] => ∅
  | pl :: rest =>
    let pluginStatus := plugin_Filter pl pod nodeInfo in
    if IsSuccess pluginStatus then runChain rest pod nodeInfo
    else {[ plugin_Name pl := pluginStatus ]}
  end.

Definition preFilter (pod : Pod) : Status :=
  if decide (MilliCPU (Pod_Spec pod) < 0)
  then mkStatus StatusUnschedulable ["invalid resource request"; "cpu"]
  else ok.

Definition quote : string := String (Ascii.ascii_of_nat 34) "".

Definition showTaint (t : Taint) : string :=
  "v1.Taint{Key:" +:+ quote +:+ Taint_Key t +:+ quote
    +:+ ", Value:" +:+ quote +:+ Taint_Value t +:+ quote
    +:+ ", Effect:" +:+ quote +:+ Taint_Effect t +:+ quote +:+ "}".

Definition showTaints (taints : list Taint) : string :=
  "[]v1.Taint{" +:+ strings_Join (map showTaint taints) ", " +:+ "}".

#[export] Instance chain : Framework :=
  {| SharedLister := gmap string NodeInfo;
     NewEmptySnapshot := ∅;
     NewSnapshot := λ nodeInfoMap, nodeInfoMap;
     CycleState := unit;
     NewCycleState := tt;
     RunPreFilterPlugins := λ _ state pod, (preFilter pod, state);
     RunFilterPlugins := λ _ _ pod nodeInfo,
       runChain [nodeResourcesFit; taintToleration; nodePorts] pod nodeInfo;
     GoSyntax_Taints := showTaints |}.

(** Cluster objects. *)
Definition meta (name : string) : ObjectMeta := mkObjectMeta name "default" [].

Definition cpuPod (name nodeName : string) (cpu : Z) : Pod :=
  mkPod (meta name) (mkPodSpec nodeName [] [] cpu []) (mkPodStatus "").

Definition nominatedPod (name nominated : string) (cpu : Z) : Pod :=
  mkPod (meta name) (mkPodSpec "" [] [] cpu []) (mkPodStatus nominated).

Definition plainNode (name : string) (cpu : Z) : Node :=
  mkNode (meta name) (mkNodeSpec false []) cpu.

Definition cordonedNode (name : string) (cpu : Z) : Node :=
  mkNode (meta name) (mkNodeSpec true []) cpu.

Definition dedicated : Taint := mkTaint "dedicated" "infra" "NoSchedule".

Definition taintedNode (name : string) (cpu : Z) : Node :=
  mkNode (meta name) (mkNodeSpec false [dedicated]) cpu.

Definition onNode (node : Node) : NodeInfo := mkNodeInfo (Some node) [].

Definition threeNodes : gmap string NodeInfo :=
  {[ "n1" := onNode (cordonedNode "n1" 2000);
     "n2" := onNode (plainNode "n2" 2000);
     "n3" := onNode (taintedNode "n3" 2000) ]}.

Definition fourNodes : gmap string NodeInfo :=
  <[ "n4" := onNode (plainNode "n4" 2000) ]> threeNodes.

Definition emptyChecker : @SchedulerBasedPredicateChecker chain :=
  mkChecker (NewDelegatingSchedulerSharedLister NewEmptySnapshot) (Listed []) (Listed []).

(** A checker with one node installed whose node lister has gone away. *)
Definition staleChecker : @SchedulerBasedPredicateChecker chain :=
  mkChecker (NewDelegatingSchedulerSharedLister
               {[ "n1" := mkNodeInfo (Some (plainNode "n1" 2000)) [] ]})
            (ListFailed "connection refused") (Listed []).

(** A small generator: a full-period congruential sequence modulo 16. *)
Definition lcg_next (x : Z) : Z := (5 * x + 3) `mod` 16.

#[export] Instance lcg : RandSource.
Proof.
  refine {| RandState := Z; Int63 := λ s, (lcg_next s, lcg_next s) |}.
  intros s; unfold lcg_next; simpl.
  pose proof (Z.mod_pos_bound (5 * s + 3) 16 eq_refl); lia.
Defined.

(** A predicate checker on top of the chain, over a snapshot kept as a map
    from node name to [NodeInfo]. *)
#[export] Instance chainChecker : PredicateChecker :=
  {| ClusterSnapshot := gmap string NodeInfo;
     NewBasicClusterSnapshot := ∅;
     AddNodeWithPods := λ snapshot node pods,
       match node with
       | None => (snapshot, Some "node not set")
       | Some n =>
         match snapshot !! Node_Name n with
         | Some _ => (snapshot, Some "node already in snapshot")
         | None => (<[Node_Name n := mkNodeInfo (Some n) pods]> snapshot, None)
         end
       end;
     FakeNodeInfoForNodeName := λ nodeName,
       mkNodeInfo (Some (mkNode (mkObjectMeta nodeName "" []) (mkNodeSpec false []) 0)) [];
     CheckPredicates := λ snapshot pod fake,
       match NodeInfo_Node fake ≫= λ n, snapshot !! Node_Name n with
       | None => Some (NewPredicateError InternalPredicateError "" "node not found" [] emptyString)
       | Some nodeInfo =>
         match outcome (Simulator.CheckPredicates
                          (mkChecker (NewDelegatingSchedulerSharedLister snapshot)
                                     (Listed []) (Listed []))
                          pod nodeInfo) with
         | Returned r => r
         | NilPointerPanic =>
           Some (NewPredicateError InternalPredicateError "" "nil node" [] emptyString)
         end
       end |}.

Definition tolerant (name : string) : DaemonSet :=
  mkDaemonSet (mkObjectMeta name "kube-system" [])
    (mkPodTemplateSpec (mkObjectMeta "" "" [("app", name)])
       (mkPodSpec "" [mkToleration "dedicated" ""] [] 1000 [])).

Definition intolerant (name : string) : DaemonSet :=
  mkDaemonSet (mkObjectMeta name "kube-system" [])
    (mkPodTemplateSpec (mkObjectMeta "" "" [("app", name)])
       (mkPodSpec "" [] [] 1000 [])).

(** A resource with two extended resources, one of them huge pages. *)
Definition sampleResource : SchedulerResources.Resource :=
  SchedulerResources.mkResource 4000 8589934592 1000000 110
    {[ "hugepages-2Mi" := 1024; "example.com/gpu" := 2 ]}.

(** An identifier generator that counts. *)
#[export] Instance counter : SchedulerTemplates.UUIDSource :=
  {| SchedulerTemplates.UUIDState := nat;
     SchedulerTemplates.NewUUID := λ n, ("uid-" +:+ pretty n, S n) |}.

Definition poolTemplate : SchedulerTemplates.TemplateNodeInfo :=
  SchedulerTemplates.mkTemplateNodeInfo
    (Some (SchedulerTemplates.mkWithUID
             (mkNode (mkObjectMeta "pool" "" [("zone", "a"); ("kubernetes.io/hostname", "pool")])
                     (mkNodeSpec false [dedicated]) 4000)
             "uid-template"))
    [SchedulerTemplates.mkWithUID (cpuPod "kube-proxy" "pool" 100) "uid-proxy";
     SchedulerTemplates.mkWithUID (cpuPod "fluentd" "pool" 200) "uid-fluentd"].

(** A scheme whose configurations carry a parallelism setting, with a
    one-file file system and a decoder that reads the first byte. *)
#[export] Instance toyScheme : SchedulerConfig.SchemeTypes :=
  {| SchedulerConfig.ConfigBody := Z;
     SchedulerConfig.OtherObject := string;
     SchedulerConfig.GroupVersionKind := string * string * string |}.

Definition schedulerGVK : string * string * string :=
  ("kubescheduler.config.k8s.io", "v1", "KubeSchedulerConfiguration").

#[export] Instance toyConfigLib : SchedulerConfig.ConfigLib :=
  {| SchedulerConfig.os_ReadFile := λ path,
       if decide (path = "/etc/scheduler.yaml") then SchedulerConfig.Ok [Byte.x01; Byte.x10]
       else if decide (path = "/etc/negative.yaml") then SchedulerConfig.Ok [Byte.x01; Byte.xff]
       else if decide (path = "/etc/pod.yaml") then SchedulerConfig.Ok [Byte.x02]
       else if decide (path = "/etc/empty.yaml") then SchedulerConfig.Ok []
       else SchedulerConfig.Failed ("open " +:+ path +:+ ": no such file or directory");
     SchedulerConfig.Decode := λ data,
       match data with
       | [Byte.x01; Byte.x10] =>
         SchedulerConfig.Ok
           (SchedulerConfig.ConfigObject (SchedulerConfig.mkKubeSchedulerConfiguration "" 16),
            schedulerGVK)
       | [Byte.x01; Byte.xff] =>
         SchedulerConfig.Ok
           (SchedulerConfig.ConfigObject (SchedulerConfig.mkKubeSchedulerConfiguration "" (-1)),
            schedulerGVK)
       | [Byte.x02] =>
         SchedulerConfig.Ok (SchedulerConfig.ForeignObject "a pod", ("", "v1", "Pod"))
       | _ => SchedulerConfig.Failed "no kind registered"
       end;
     SchedulerConfig.GroupVersion_String := λ gvk,
       if decide (gvk.1.1 = "") then gvk.1.2 else gvk.1.1 +:+ "/" +:+ gvk.1.2;
     SchedulerConfig.GroupVersionKind_String := λ gvk,
       gvk.1.1 +:+ "/" +:+ gvk.1.2 +:+ ", Kind=" +:+ gvk.2;
     SchedulerConfig.ValidateKubeSchedulerConfiguration := λ cfg,
       if decide (SchedulerConfig.Config_Body cfg ≤ 0)
       then Some "parallelism: Invalid value: should be an integer value greater than zero"
       else None |}.

(** A framework whose only filter is the taint check. *)
Definition taintsOnly : Framework :=
  {| SharedLister := gmap string NodeInfo;
     NewEmptySnapshot := ∅;
     NewSnapshot := λ nodeInfoMap, nodeInfoMap;
     CycleState := unit;
     NewCycleState := tt;
     RunPreFilterPlugins := λ _ state pod, (preFilter pod, state);
     RunFilterPlugins := λ _ _ pod nodeInfo, runChain [taintToleration] pod nodeInfo;
     GoSyntax_Taints := showTaints |}.

Definition taintsOnlyChecker : @SchedulerBasedPredicateChecker taintsOnly :=
  @mkChecker taintsOnly (@mkDelegating taintsOnly ∅) (Listed []) (Listed []).

Definition cordonedOnly : gmap string NodeInfo :=
  {[ "n1" := onNode (cordonedNode "n1" 2000);
     "n5" := onNode (cordonedNode "n5" 2000) ]}.

(** A snapshot that accepts any node and a checker that accepts any pod. *)
Definition permissiveChecker : PredicateChecker :=
  {| ClusterSnapshot := unit;
     NewBasicClusterSnapshot := tt;
     AddNodeWithPods := λ snapshot _ _, (snapshot, None);
     FakeNodeInfoForNodeName := λ _, NewNodeInfo;
     CheckPredicates := λ _ _ _, None |}.

(** *** A chain shaped like the scheduler's default provider

    The filter plugins of the default provider that bear on the fields
    kept here, in the provider's order, and its inter-pod-affinity
    pre-filter, which fails on an affinity term whose label selector is
    invalid. *)
Definition TaintNodeUnschedulable : string := "node.kubernetes.io/unschedulable".

Definition nodeUnschedulable : FilterPlugin :=
  mkFilterPlugin "NodeUnschedulable" (λ pod nodeInfo,
    match NodeInfo_Node nodeInfo with
    | None => mkStatus StatusUnschedulableAndUnresolvable ["node(s) had unknown conditions"]
    | Some node =>
      let podToleratesUnschedulable :=
        tolerates (Tolerations (Pod_Spec pod))
                  (mkTaint TaintNodeUnschedulable "" "NoSchedule") in
      if Unschedulable (Node_Spec node) && negb podToleratesUnschedulable
      then mkStatus StatusUnschedulableAndUnresolvable ["node(s) were unschedulable"]
      else ok
    end).

Definition nodeNamePlugin : FilterPlugin :=
  mkFilterPlugin "NodeName" (λ pod nodeInfo,
    match NodeInfo_Node nodeInfo with
    | None => mkStatus StatusError ["node not found"]
    | Some node =>
      if bool_decide (NodeName (Pod_Spec pod) = "")
         || bool_decide (NodeName (Pod_Spec pod) = Node_Name node)
      then ok
      else mkStatus StatusUnschedulableAndUnresolvable
                    ["node(s) didn't match the requested hostname"]
    end).

Definition validRequirement (r : LabelSelectorRequirement) : bool :=
  match Requirement_Operator r with
  | OpIn | OpNotIn => negb (bool_decide (Requirement_Values r = []))
  | OpExists | OpDoesNotExist => bool_decide (Requirement_Values r = [])
  end.

Definition interPodAffinityPreFilter (pod : Pod) : Status :=
  if forallb (λ term, forallb validRequirement (Term_MatchExpressions term))
             (PodAffinity (Pod_Spec pod))
  then ok
  else mkStatus StatusError
         ["error while running InterPodAffinity prefilter plugin for pod "
          +:+ Pod_Name pod +:+ ": invalid label selector"].

Definition defaultProvider : Framework :=
  {| SharedLister := gmap string NodeInfo;
     NewEmptySnapshot := ∅;
     NewSnapshot := λ nodeInfoMap, nodeInfoMap;
     CycleState := unit;
     NewCycleState := tt;
     RunPreFilterPlugins := λ _ state pod, (interPodAffinityPreFilter pod, state);
     RunFilterPlugins := λ _ _ pod nodeInfo,
       runChain [nodeUnschedulable; nodeResourcesFit; nodeNamePlugin; nodePorts;
                 taintToleration] pod nodeInfo;
     GoSyntax_Taints := showTaints |}.

Definition defaultChecker : @SchedulerBasedPredicateChecker defaultProvider :=
  @mkChecker defaultProvider (@mkDelegating defaultProvider ∅) (Listed []) (Listed []).

(** A node cordoned by the operator (the flag, and the taint the node
    controller adds with it), a pod that tolerates being placed on such a
    node, as daemonset pods do, and a pod whose affinity term uses the
    operator In without values. *)
Definition cordonedAndTainted (name : string) (cpu : Z) : Node :=
  mkNode (meta name)
         (mkNodeSpec true [mkTaint TaintNodeUnschedulable "" "NoSchedule"]) cpu.

Definition daemonPod : Pod :=
  mkPod (meta "node-exporter")
        (mkPodSpec "" [mkToleration TaintNodeUnschedulable "NoSchedule"] [] 100 [])
        (mkPodStatus "").

Definition badAffinityPod : Pod :=
  mkPod (meta "w")
        (mkPodSpec "" [] [] 100
           [mkPodAffinityTerm [mkLabelSelectorRequirement "app" OpIn []]
                              "kubernetes.io/hostname"])
        (mkPodStatus "").

(** Modelled from the spec: [addWorkload] of an aggregated node state,
    which is declared elsewhere in the simulator package.  It appends the
    workload, and fails if a requested port is already in use on the
    node. *)
Definition addWorkload (state : NodeInfo) (w : Pod) : option NodeInfo :=
  if existsb (λ port, bool_decide (port ∈ usedPorts (NodeInfo_Pods state)))
             (HostPorts (Pod_Spec w))
  then None
  else Some (AddPod w state).

(** Modelled from the spec: [addNodeWithWorkloads] of a cluster snapshot,
    which is declared elsewhere in the simulator package.  It fails with
    DuplicateNode if the identity is already present; otherwise it creates
    the aggregated node state and adds each workload in order, failing
    atomically (the snapshot is left as it was) if adding one fails. *)
Definition addNodeWithWorkloads (snapshot : gmap string NodeInfo) (node : Node)
    (workloads : list Pod) : gmap string NodeInfo * option string :=
  match snapshot !! Node_Name node with
  | Some _ => (snapshot, Some "DuplicateNode")
  | None =>
    match foldl (λ state w, state ≫= λ st, addWorkload st w)
                (Some (mkNodeInfo (Some node) [])) workloads with
    | None => (snapshot, Some "PortConflict")
    | Some state => (<[Node_Name node := state]> snapshot, None)
    end
  end.

(** The predicate checker of the chain over the snapshot of the
    specification. *)
Definition specSnapshotChecker : PredicateChecker :=
  {| ClusterSnapshot := gmap string NodeInfo;
     NewBasicClusterSnapshot := ∅;
     AddNodeWithPods := λ snapshot node pods,
       match node with
       | None => (snapshot, Some "NodeNotFound")
       | Some n => addNodeWithWorkloads snapshot n pods
       end;
     FakeNodeInfoForNodeName := FakeNodeInfoForNodeName (PredicateChecker := chainChecker);
     CheckPredicates := CheckPredicates (PredicateChecker := chainChecker) |}.

Definition webPod (name : string) : Pod :=
  mkPod (meta name) (mkPodSpec "busy" [] [8080] 100 []) (mkPodStatus "").

(** A node template whose two pods ask for the same host port. *)
Definition busyTemplate : NodeInfo :=
  mkNodeInfo (Some (plainNode "busy" 2000)) [webPod "web-0"; webPod "web-1"].

End Instances.

(** * Properties *)

(** ** utils/scheduler: the node-name-to-info map *)

Module SchedulerFacts.
Import Scheduler.

Section WithRange.
Context {R : GoMapRange}.

Lemma addPodToMap_lookup m pod key :
  addPodToMap m pod !! key =
    if decide (podNodeName pod = key)
    then Some (AddPod pod (default NewNodeInfo (m !! key)))
    else m !! key.
Proof.
  unfold addPodToMap. case_decide as Hk.
  - subst key. destruct (m !! podNodeName pod) as [ni|] eqn:E.
    + by rewrite lookup_alter_eq, E.
    + by rewrite lookup_alter_eq, lookup_insert_eq.
  - destruct (m !! podNodeName pod) as [ni|] eqn:E.
    + by rewrite lookup_alter_ne.
    + by rewrite lookup_alter_ne, lookup_insert_ne.
Qed.

Lemma setNodeInMap_lookup m node key :
  setNodeInMap m node !! key =
    if decide (Node_Name node = key)
    then Some (SetNode node (default NewNodeInfo (m !! key)))
    else m !! key.
Proof.
  unfold setNodeInMap. case_decide as Hk.
  - subst key. destruct (m !! Node_Name node) as [ni|] eqn:E.
    + by rewrite lookup_alter_eq, E.
    + by rewrite lookup_alter_eq, lookup_insert_eq.
  - destruct (m !! Node_Name node) as [ni|] eqn:E.
    + by rewrite lookup_alter_ne.
    + by rewrite lookup_alter_ne, lookup_insert_ne.
Qed.

Lemma podsOn_snoc key pods pod :
  podsOn key (pods ++ [pod]) =
    podsOn key pods ++ (if decide (podNodeName pod = key) then [pod] else []).
Proof.
  unfold podsOn. rewrite filter_app. f_equal.
Qed.

(** After the first loop, a key holds the node info it had (a fresh one if
    it had none) with the pods filed under it appended. *)
Lemma pods_loop_lookup m pods key :
  foldl addPodToMap m pods !! key =
    match podsOn key pods with
    | [] => m !! key
    | _ :: _ =>
      let ni := default NewNodeInfo (m !! key) in
      Some (mkNodeInfo (NodeInfo_Node ni) (NodeInfo_Pods ni ++ podsOn key pods))
    end.
Proof.
  induction pods as [|pod pods IH] using rev_ind; [done|].
  rewrite foldl_app. simpl. rewrite addPodToMap_lookup, podsOn_snoc, IH.
  case_decide as Hk.
  - destruct (podsOn key pods) as [|p ps]; simpl.
    + by destruct (m !! key).
    + unfold AddPod; simpl. by rewrite <- !(assoc_L (++)).
  - rewrite app_nil_r. by destruct (podsOn key pods).
Qed.

Lemma nodeNamed_snoc key nodes node :
  nodeNamed key (nodes ++ [node]) =
    if decide (Node_Name node = key) then Some node else nodeNamed key nodes.
Proof.
  unfold nodeNamed. rewrite filter_app, filter_cons, filter_nil.
  case_decide; [by rewrite last_snoc | by rewrite app_nil_r].
Qed.

(** After the second loop, a key named by some input node holds the last
    such node; the pod list under the key is untouched. *)
Lemma nodes_loop_lookup m nodes key :
  foldl setNodeInMap m nodes !! key =
    match nodeNamed key nodes with
    | None => m !! key
    | Some node =>
      Some (mkNodeInfo (Some node) (NodeInfo_Pods (default NewNodeInfo (m !! key))))
    end.
Proof.
  induction nodes as [|node nodes IH] using rev_ind; [done|].
  rewrite foldl_app. simpl. rewrite setNodeInMap_lookup, nodeNamed_snoc, IH.
  case_decide as Hk; [|done].
  unfold SetNode. by destruct (nodeNamed key nodes), (m !! key).
Qed.

Lemma delete_loop_lookup (m : gmap string NodeInfo) keys key :
  foldl (λ m key, delete key m) m keys !! key =
    if decide (key ∈ keys) then None else m !! key.
Proof.
  induction keys as [|k keys IH] using rev_ind.
  - destruct (decide (key ∈ [])) as [H|H]; [by apply elem_of_nil in H | done].
  - rewrite foldl_app. simpl. destruct (decide (k = key)) as [->|Hne].
    + rewrite lookup_delete_eq. rewrite decide_True; [done|].
      apply elem_of_app. right. by apply list_elem_of_singleton.
    + rewrite lookup_delete_ne by done. rewrite IH.
      destruct (decide (key ∈ keys)) as [H1|H1],
               (decide (key ∈ keys ++ [k])) as [H2|H2]; try done.
      * exfalso. apply H2, elem_of_app. by left.
      * exfalso. apply elem_of_app in H2 as [?|H2]; [done|].
        by apply list_elem_of_singleton in H2.
Qed.

Lemma elem_of_keysToRemove (m : gmap string NodeInfo) key :
  key ∈ keysToRemove m ↔ ∃ ni, m !! key = Some ni ∧ NodeInfo_Node ni = None.
Proof.
  unfold keysToRemove. rewrite list_elem_of_fmap. split.
  - intros [[k ni] [-> Hin]]. apply list_elem_of_filter in Hin as [Hnil Hin].
    rewrite goRange_perm in Hin. apply elem_of_map_to_list in Hin.
    exists ni. split; [done|]. unfold hasNoNode in Hnil. simpl in *.
    by destruct (NodeInfo_Node ni).
  - intros (ni & Hl & Hnil). exists (key, ni). split; [done|].
    apply list_elem_of_filter. split.
    + unfold hasNoNode. simpl. by rewrite Hnil.
    + rewrite goRange_perm. by apply elem_of_map_to_list.
Qed.

(** The whole function, entry by entry. *)
Lemma CreateNodeNameToInfoMap_lookup pods nodes key :
  CreateNodeNameToInfoMap pods nodes !! key =
    match nodeNamed key nodes with
    | None => None
    | Some node => Some (mkNodeInfo (Some node) (podsOn key pods))
    end.
Proof.
  unfold CreateNodeNameToInfoMap. rewrite delete_loop_lookup.
  set (withNodes := foldl setNodeInMap (foldl addPodToMap ∅ pods) nodes).
  assert (withNodes !! key =
          match nodeNamed key nodes with
          | None => match podsOn key pods with
                    | [] => None
                    | _ :: _ => Some (mkNodeInfo None (podsOn key pods))
                    end
          | Some node => Some (mkNodeInfo (Some node) (podsOn key pods))
          end) as Hw.
  { unfold withNodes. rewrite nodes_loop_lookup, pods_loop_lookup, lookup_empty.
    destruct (nodeNamed key nodes), (podsOn key pods); done. }
  case_decide as Hin.
  - apply elem_of_keysToRemove in Hin as (ni & Hl & Hnil).
    rewrite Hw in Hl. destruct (nodeNamed key nodes); [|done].
    by simplify_eq.
  - rewrite Hw. destruct (nodeNamed key nodes) as [node|]; [done|].
    destruct (podsOn key pods) as [|p ps] eqn:Hp; [done|].
    exfalso. apply Hin, elem_of_keysToRemove.
    by exists (mkNodeInfo None (p :: ps)).
Qed.

Lemma nodeNamed_Some key nodes node :
  nodeNamed key nodes = Some node → node ∈ nodes ∧ Node_Name node = key.
Proof.
  unfold nodeNamed. intros H.
  assert (node ∈ filter (λ node, Node_Name node = key) nodes) as Hin.
  { destruct (filter _ nodes) as [|x l] using rev_ind; [done|].
    rewrite last_snoc in H. simplify_eq. set_solver. }
  by apply list_elem_of_filter in Hin as [? ?].
Qed.

Lemma nodeNamed_is_Some key nodes node :
  node ∈ nodes → Node_Name node = key → is_Some (nodeNamed key nodes).
Proof.
  intros Hin Hk. unfold nodeNamed.
  assert (node ∈ filter (λ node, Node_Name node = key) nodes) as Hf
    by by apply list_elem_of_filter.
  destruct (filter _ nodes) as [|x l] using rev_ind.
  - by apply elem_of_nil in Hf.
  - rewrite last_snoc. eauto.
Qed.


(** C9. A pod whose node name is empty and whose nominated node name is
    not is filed under its nominated node: when the input nodes contain a
    node of that name, the pod is among the pods of that node's entry. *)
Theorem nominated_pod_filed_under_nominated_node pods nodes pod node :
  pod ∈ pods →
  NodeName (Pod_Spec pod) = "" →
  NominatedNodeName (Pod_Status pod) ≠ "" →
  node ∈ nodes →
  Node_Name node = NominatedNodeName (Pod_Status pod) →
  ∃ ni, CreateNodeNameToInfoMap pods nodes !! NominatedNodeName (Pod_Status pod) = Some ni
        ∧ is_Some (NodeInfo_Node ni)
        ∧ pod ∈ NodeInfo_Pods ni.
Proof.
  intros Hpod Hempty _ Hnode Hname.
  destruct (nodeNamed_is_Some _ nodes node Hnode Hname) as [node' Hn].
  exists (mkNodeInfo (Some node') (podsOn (NominatedNodeName (Pod_Status pod)) pods)).
  rewrite CreateNodeNameToInfoMap_lookup, Hn. split; [done|]. split; [by eexists|].
  simpl. apply list_elem_of_filter. split; [|done].
  unfold podNodeName. by rewrite decide_True.
Qed.

End WithRange.

Lemma nominated_pod_filed_under_nominated_node_witness :
  let waiting := Instances.nominatedPod "waiting" "n1" 100 in
  let pods := [Instances.cpuPod "running" "n1" 500; waiting;
               Instances.cpuPod "orphan" "gone" 10] in
  let nodes := [Instances.plainNode "n0" 1000; Instances.plainNode "n1" 2000] in
  ∃ ni, CreateNodeNameToInfoMap (R := reversedRange) pods nodes !! "n1" = Some ni
        ∧ is_Some (NodeInfo_Node ni)
        ∧ waiting ∈ NodeInfo_Pods ni.
Proof.
  intros waiting pods nodes.
  apply (nominated_pod_filed_under_nominated_node (R := reversedRange)
           pods nodes waiting (Instances.plainNode "n1" 2000)).
  - apply list_elem_of_further, list_elem_of_here.
  - reflexivity.
  - discriminate.
  - apply list_elem_of_further, list_elem_of_here.
  - reflexivity.
Defined.

End SchedulerFacts.

(** ** simulator: the predicate checker *)

Module SimulatorFacts.
Import scheduler_framework Simulator.

Section WithFramework.
Context {R : GoMapRange} {F : Framework}.
Implicit Types (p : SchedulerBasedPredicateChecker) (pod : Pod)
  (nodeInfo : NodeInfo) (nodeInfos : gmap string NodeInfo).

Lemma traced_ret_bind {A B} (a : A) (f : A → Traced B) : mret a ≫= f = f a.
Proof. unfold mret, mbind, Traced_ret, Traced_bind. by destruct (f a). Qed.

Lemma traced_call_bind {A B} (a : A) (c : Call) (f : A → Traced B) :
  ((Returned a, [c]) : Traced A) ≫= f = ((f a).1, c :: (f a).2).
Proof. unfold mbind, Traced_bind. by destruct (f a). Qed.

(** *** The status loops *)

Lemma allSucceed_forallb (l : list (string * Status)) :
  allSucceed l = forallb (λ kv, IsSuccess kv.2) l.
Proof.
  induction l as [|[k st] l IH]; [done|]. simpl. rewrite IH.
  by destruct (IsSuccess st).
Qed.

Lemma allSucceed_true (l : list (string * Status)) :
  allSucceed l = true ↔ ∀ k st, (k, st) ∈ l → IsSuccess st = true.
Proof.
  rewrite allSucceed_forallb, forallb_forall. split.
  - intros H k st Hin. by apply (H (k, st)), list_elem_of_In.
  - intros H [k st] Hin. by apply (H k st), list_elem_of_In.
Qed.

(** Whether every reported status succeeds does not depend on the order
    in which the status map is visited. *)
Lemma allSucceed_range (m : gmap string Status) :
  allSucceed (goRange m) = true ↔ ∀ k st, m !! k = Some st → IsSuccess st = true.
Proof.
  rewrite allSucceed_true. split; intros H k st Hin.
  - apply (H k). rewrite goRange_perm. by apply elem_of_map_to_list.
  - apply (H k). rewrite goRange_perm in Hin. by apply elem_of_map_to_list in Hin.
Qed.

Lemma allSucceed_everyFilterPasses p state pod nodeInfo :
  allSucceed (goRange (RunFilterPlugins (delegate (delegatingSharedLister p))
                         state pod nodeInfo)) = true
  ↔ everyFilterPasses p state pod nodeInfo.
Proof. apply allSucceed_range. Qed.

Lemma buildDebugInfo_calls filterName nodeInfo :
  calls (buildDebugInfo filterName nodeInfo) = [].
Proof.
  unfold buildDebugInfo. case_decide; [|done].
  by destruct (NodeInfo_Node nodeInfo).
Qed.

Lemma buildDebugInfo_returned filterName nodeInfo debug :
  outcome (buildDebugInfo filterName nodeInfo) = Returned debug →
  (filterName = "TaintToleration" →
     ∃ node, NodeInfo_Node nodeInfo = Some node
             ∧ debug = "taints on node: " +:+ GoSyntax_Taints (Taints (Node_Spec node)))
  ∧ (filterName ≠ "TaintToleration" → debug = emptyString).
Proof.
  unfold buildDebugInfo. case_decide as Hn.
  - destruct (NodeInfo_Node nodeInfo) as [node|]; [|done].
    simpl. intros [= <-]. split; [by exists node | done].
  - simpl. intros [= <-]. done.
Qed.

(** The loop of [CheckPredicates] over the statuses: it ends without a
    rejection exactly when no status fails, and calls nothing. *)
Lemma CheckPredicates_range_fits (l : list (string * Status)) nodeInfo :
  outcome (CheckPredicates_range l nodeInfo) = Returned None ↔ allSucceed l = true.
Proof.
  induction l as [|[k st] l IH]; [done|]. simpl.
  destruct (IsSuccess st); simpl; [done|].
  destruct (IsUnschedulable st);
    destruct (buildDebugInfo k nodeInfo) as [[debug|] t]; done.
Qed.

Lemma CheckPredicates_range_calls (l : list (string * Status)) nodeInfo :
  calls (CheckPredicates_range l nodeInfo) = [].
Proof.
  induction l as [|[k st] l IH]; [done|]. simpl.
  destruct (IsSuccess st); simpl; [done|].
  pose proof (buildDebugInfo_calls k nodeInfo) as Hc.
  destruct (IsUnschedulable st);
    destruct (buildDebugInfo k nodeInfo) as [[debug|] t];
    simpl in *; subst; done.
Qed.

(** A rejection built by the loop names a failing status of the list and
    carries the debug information of that name. *)
Lemma CheckPredicates_range_rejected (l : list (string * Status)) nodeInfo e :
  outcome (CheckPredicates_range l nodeInfo) = Returned (Some e) →
  ∃ st debug, (predicateName e, st) ∈ l ∧ IsSuccess st = false
    ∧ outcome (buildDebugInfo (predicateName e) nodeInfo) = Returned debug
    ∧ e = NewPredicateError
            (if IsUnschedulable st then NotSchedulablePredicateError
             else InternalPredicateError)
            (predicateName e) (Message st) (Reasons st) debug.
Proof.
  induction l as [|[k st] l IH]; [done|]. simpl.
  destruct (IsSuccess st) eqn:Hs; simpl.
  - intros H. destruct (IH H) as (st' & debug & Hin & ?).
    exists st', debug. split; [by apply list_elem_of_further | done].
  - destruct (IsUnschedulable st) eqn:Hu;
      destruct (buildDebugInfo k nodeInfo) as [[debug|] t] eqn:Hd; simpl; try done;
      intros [= <-]; exists st, debug; simpl; rewrite Hd, Hu;
      (split; [apply list_elem_of_here | done]).
Qed.

(** [CheckPredicates], unfolded on the answer of the pre-check stage. *)
Lemma CheckPredicates_unfold p pod nodeInfo :
  CheckPredicates p pod nodeInfo =
    let '(preFilterStatus, state) := preFilterResult p pod in
    if IsSuccess preFilterStatus then
      let r := CheckPredicates_range
                 (goRange (RunFilterPlugins (delegate (delegatingSharedLister p))
                             state pod nodeInfo)) nodeInfo in
      (r.1, PreFilterCall pod :: FilterCall pod nodeInfo :: r.2)
    else
      (Returned (Some (NewPredicateError InternalPredicateError ""
                         (Message preFilterStatus) (Reasons preFilterStatus)
                         emptyString)),
       [PreFilterCall pod]).
Proof.
  unfold CheckPredicates, framework_RunPreFilterPlugins, preFilterResult.
  rewrite traced_call_bind.
  destruct (RunPreFilterPlugins _ _ _) as [st state]. simpl.
  destruct (IsSuccess st); simpl; [|done].
  by destruct (CheckPredicates_range _ _).
Qed.

(** X22. [CheckPredicates] asks the pre-check once and, if and only if
    that passes, the filters once, on the node it was given. *)
Lemma CheckPredicates_calls p pod nodeInfo :
  calls (CheckPredicates p pod nodeInfo) =
    if IsSuccess (preFilterResult p pod).1
    then [PreFilterCall pod; FilterCall pod nodeInfo]
    else [PreFilterCall pod].
Proof.
  rewrite CheckPredicates_unfold.
  destruct (preFilterResult p pod) as [st state]. simpl.
  destruct (IsSuccess st); unfold calls; simpl; [|done].
  pose proof (CheckPredicates_range_calls
    (goRange (RunFilterPlugins (delegate (delegatingSharedLister p)) state pod nodeInfo))
    nodeInfo) as H.
  unfold calls in H. by rewrite H.
Qed.

Lemma CheckPredicates_fits p pod nodeInfo :
  outcome (CheckPredicates p pod nodeInfo) = Returned None ↔
  IsSuccess (preFilterResult p pod).1 = true
  ∧ everyFilterPasses p (preFilterResult p pod).2 pod nodeInfo.
Proof.
  rewrite CheckPredicates_unfold.
  destruct (preFilterResult p pod) as [st state]. simpl.
  destruct (IsSuccess st); simpl.
  - unfold outcome. simpl.
    rewrite <- allSucceed_everyFilterPasses.
    pose proof (CheckPredicates_range_fits
      (goRange (RunFilterPlugins (delegate (delegatingSharedLister p)) state pod nodeInfo))
      nodeInfo) as H.
    unfold outcome in H. rewrite H. split; [by intros ? | by intros [_ ?]].
  - unfold outcome. simpl. split; [done | by intros [? _]].
Qed.

(** The verdict of [CheckPredicates] is the same whatever order the status
    map is visited in; only which of several rejections is reported can
    differ. *)
Lemma CheckPredicates_fits_any_order (R1 R2 : GoMapRange) p pod nodeInfo :
  outcome (CheckPredicates (R := R1) p pod nodeInfo) = Returned None ↔
  outcome (CheckPredicates (R := R2) p pod nodeInfo) = Returned None.
Proof.
  unfold CheckPredicates, framework_RunPreFilterPlugins, framework_RunFilterPlugins.
  unfold mbind, Traced_bind.
  destruct (RunPreFilterPlugins _ _ _) as [st state]. simpl.
  destruct (IsSuccess st); simpl; [|done].
  set (m := RunFilterPlugins _ _ _ _).
  pose proof (CheckPredicates_range_fits (goRange (GoMapRange := R1) m) nodeInfo) as H1.
  pose proof (CheckPredicates_range_fits (goRange (GoMapRange := R2) m) nodeInfo) as H2.
  unfold outcome in *.
  destruct (CheckPredicates_range (goRange (GoMapRange := R1) m) nodeInfo) as [o1 t1].
  destruct (CheckPredicates_range (goRange (GoMapRange := R2) m) nodeInfo) as [o2 t2].
  simpl in *. rewrite H1, H2.
  rewrite !allSucceed_true. split; intros H k st' Hin; apply (H k).
  - rewrite goRange_perm in Hin. by rewrite goRange_perm.
  - rewrite goRange_perm in Hin. by rewrite goRange_perm.
Qed.

(** *** The loop of [FitsAny] over the candidates *)

Lemma FitsAny_range_cons p state pod name nodeInfo rest :
  FitsAny_range p state pod ((name, nodeInfo) :: rest) =
    match NodeInfo_Node nodeInfo with
    | None => (NilPointerPanic, [])
    | Some node =>
      if Unschedulable (Node_Spec node) then FitsAny_range p state pod rest
      else if allSucceed (goRange (RunFilterPlugins (delegate (delegatingSharedLister p))
                                     state pod nodeInfo))
      then (Returned (name, None), [FilterCall pod nodeInfo])
      else ((FitsAny_range p state pod rest).1,
            FilterCall pod nodeInfo :: (FitsAny_range p state pod rest).2)
    end.
Proof.
  simpl. destruct (NodeInfo_Node nodeInfo) as [node|]; [|done].
  simpl (deref _). rewrite traced_ret_bind.
  destruct (Unschedulable _); [done|].
  destruct (allSucceed _); [done|].
  by destruct (FitsAny_range p state pod rest).
Qed.

Ltac step_candidate node Hnode Hflag Hpass :=
  rewrite FitsAny_range_cons;
  destruct (NodeInfo_Node _) as [node|] eqn:Hnode;
  [ destruct (Unschedulable (Node_Spec node)) eqn:Hflag;
    [ | destruct (allSucceed _) eqn:Hpass ] | ].

(** A name the loop returns belongs to a schedulable candidate that the
    filters accept. *)
Lemma FitsAny_range_returned p state pod entries name :
  outcome (FitsAny_range p state pod entries) = Returned (name, None) →
  ∃ nodeInfo, (name, nodeInfo) ∈ entries ∧ isSchedulable nodeInfo
              ∧ everyFilterPasses p state pod nodeInfo.
Proof.
  induction entries as [|[k ni] rest IH]; [done|].
  step_candidate node Hnode Hflag Hpass; unfold outcome; simpl.
  - intros H. destruct (IH H) as (ni' & Hin & ?).
    exists ni'. split; [by apply list_elem_of_further | done].
  - intros [= <-]. exists ni. split; [apply list_elem_of_here|].
    split; [by exists node | by apply allSucceed_everyFilterPasses].
  - intros H. destruct (IH H) as (ni' & Hin & ?).
    exists ni'. split; [by apply list_elem_of_further | done].
  - done.
Qed.

(** The filter stage is only ever run on schedulable candidates. *)
Lemma FitsAny_range_calls p state pod entries :
  Forall (λ c, ∃ name nodeInfo, c = FilterCall pod nodeInfo
                                ∧ (name, nodeInfo) ∈ entries
                                ∧ isSchedulable nodeInfo)
         (calls (FitsAny_range p state pod entries)).
Proof.
  induction entries as [|[k ni] rest IH]; [by constructor|].
  assert (Forall (λ c, ∃ name nodeInfo, c = FilterCall pod nodeInfo
                         ∧ (name, nodeInfo) ∈ (k, ni) :: rest
                         ∧ isSchedulable nodeInfo)
                 (calls (FitsAny_range p state pod rest))) as IH'.
  { eapply Forall_impl; [exact IH|]. intros c (name & ni' & -> & Hin & Hs).
    exists name, ni'. split; [done|]. split; [by apply list_elem_of_further | done]. }
  assert (∀ node, NodeInfo_Node ni = Some node →
            Unschedulable (Node_Spec node) = false →
            ∃ name nodeInfo, FilterCall pod ni = FilterCall pod nodeInfo
                             ∧ (name, nodeInfo) ∈ (k, ni) :: rest
                             ∧ isSchedulable nodeInfo) as Hhere.
  { intros node Hn Hf. exists k, ni. split; [done|].
    split; [apply list_elem_of_here | by exists node]. }
  step_candidate node Hnode Hflag Hpass; unfold calls; simpl.
  - exact IH'.
  - constructor; [by eapply Hhere | constructor].
  - constructor; [by eapply Hhere | exact IH'].
  - constructor.
Qed.

(** When every candidate carries a node, the loop returns: either a name,
    or the aggregate error, the latter only if no schedulable candidate is
    accepted by the filters. *)
Lemma FitsAny_range_total p state pod entries :
  Forall (λ e, is_Some (NodeInfo_Node e.2)) entries →
  (∃ name, outcome (FitsAny_range p state pod entries) = Returned (name, None))
  ∨ (outcome (FitsAny_range p state pod entries) = Returned ("", Some (noFitError pod))
     ∧ ∀ name nodeInfo, (name, nodeInfo) ∈ entries → isSchedulable nodeInfo →
         ¬ everyFilterPasses p state pod nodeInfo).
Proof.
  induction entries as [|[k ni] rest IH]; intros Hall.
  - right. split; [done|]. intros name ni Hin. by apply elem_of_nil in Hin.
  - apply Forall_cons in Hall as [[node0 Hnode0] Hall]. simpl in Hnode0.
    specialize (IH Hall).
    assert (∀ name nodeInfo,
              (∀ name nodeInfo, (name, nodeInfo) ∈ rest → isSchedulable nodeInfo →
                 ¬ everyFilterPasses p state pod nodeInfo) →
              (isSchedulable ni → ¬ everyFilterPasses p state pod ni) →
              (name, nodeInfo) ∈ (k, ni) :: rest → isSchedulable nodeInfo →
              ¬ everyFilterPasses p state pod nodeInfo) as Hcons.
    { intros name ni' Hrest Hhead Hin Hs.
      apply elem_of_cons in Hin as [[= -> ->]|Hin]; [by apply Hhead | by eapply Hrest]. }
    step_candidate node Hnode Hflag Hpass; unfold outcome in *; simpl.
    + destruct IH as [IH|[IH Hnone]]; [by left|]. right. split; [done|].
      intros name ni' Hin Hs. eapply Hcons; [exact Hnone| |exact Hin|exact Hs].
      intros (node' & Hn' & Hf'). congruence.
    + left. by exists k.
    + destruct IH as [IH|[IH Hnone]]; [by left|]. right. split; [done|].
      intros name ni' Hin Hs. eapply Hcons; [exact Hnone| |exact Hin|exact Hs].
      intros _ Hp. apply allSucceed_everyFilterPasses in Hp. congruence.
    + congruence.
Qed.

(** [FitsAny], unfolded on the answer of the pre-check stage. *)
Lemma FitsAny_unfold p pod nodeInfos :
  FitsAny p pod nodeInfos =
    let '(preFilterStatus, state) := preFilterResult p pod in
    if IsSuccess preFilterStatus then
      let r := FitsAny_range p state pod (goRange nodeInfos) in
      (r.1, PreFilterCall pod :: r.2)
    else
      (Returned ("", Some (preFilterError pod preFilterStatus)), [PreFilterCall pod]).
Proof.
  unfold FitsAny, framework_RunPreFilterPlugins, preFilterResult.
  rewrite traced_call_bind.
  destruct (RunPreFilterPlugins _ _ _) as [st state]. simpl.
  by destruct (IsSuccess st).
Qed.

Lemma elem_of_goRange {A} (m : gmap string A) k (a : A) :
  (k, a) ∈ goRange m ↔ m !! k = Some a.
Proof. rewrite goRange_perm. apply elem_of_map_to_list. Qed.

(** *** The claims about [FitsAny] and [CheckPredicates] *)

Lemma FitsAny_calls p pod nodeInfos :
  ∃ filterCalls,
    calls (FitsAny p pod nodeInfos) = PreFilterCall pod :: filterCalls
    ∧ Forall (λ c, ∃ name nodeInfo, c = FilterCall pod nodeInfo
                     ∧ nodeInfos !! name = Some nodeInfo
                     ∧ isSchedulable nodeInfo) filterCalls.
Proof.
  rewrite FitsAny_unfold. destruct (preFilterResult p pod) as [st state].
  destruct (IsSuccess st); unfold calls; simpl.
  - eexists. split; [done|].
    eapply Forall_impl; [apply FitsAny_range_calls|].
    intros c (name & ni & -> & Hin & Hs). exists name, ni.
    split; [done|]. split; [by apply elem_of_goRange | done].
  - exists []. split; [done | constructor].
Qed.

Lemma FitsAny_returned p pod nodeInfos name :
  outcome (FitsAny p pod nodeInfos) = Returned (name, None) →
  ∃ nodeInfo, nodeInfos !! name = Some nodeInfo
              ∧ isSchedulable nodeInfo
              ∧ IsSuccess (preFilterResult p pod).1 = true
              ∧ everyFilterPasses p (preFilterResult p pod).2 pod nodeInfo.
Proof.
  rewrite FitsAny_unfold.
  destruct (preFilterResult p pod) as [st state]. simpl.
  destruct (IsSuccess st); unfold outcome; simpl; [|done].
  intros H. apply FitsAny_range_returned in H as (ni & Hin & Hs & Hp).
  exists ni. split; [by apply elem_of_goRange | done].
Qed.

(** C3. [FitsAny] runs the pre-check stage exactly once (its first call,
    and no later call is a pre-check); every run of the per-node chain is
    on a candidate of the map whose Node is not marked unschedulable; and a
    name it returns is the key of a schedulable candidate for which the
    framework reports no failing filter. *)
Theorem FitsAny_prefilter_once_schedulable_only p pod nodeInfos :
  (∃ filterCalls,
      calls (FitsAny p pod nodeInfos) = PreFilterCall pod :: filterCalls
      ∧ Forall (λ c, ∃ name nodeInfo, c = FilterCall pod nodeInfo
                       ∧ nodeInfos !! name = Some nodeInfo
                       ∧ isSchedulable nodeInfo) filterCalls)
  ∧ length (filter (λ c, isPreFilterCall c = true) (calls (FitsAny p pod nodeInfos))) = 1%nat
  ∧ (∀ name, outcome (FitsAny p pod nodeInfos) = Returned (name, None) →
       ∃ nodeInfo, nodeInfos !! name = Some nodeInfo
                   ∧ isSchedulable nodeInfo
                   ∧ everyFilterPasses p (preFilterResult p pod).2 pod nodeInfo).
Proof.
  pose proof (FitsAny_calls p pod nodeInfos) as Hcalls.
  split; [exact Hcalls|]. split.
  - destruct Hcalls as (filterCalls & -> & Hall).
    rewrite filter_cons_True by done. simpl. f_equal.
    induction Hall as [|c l (name & ni & -> & _) _ IH]; [done|].
    by rewrite filter_cons_False.
  - intros name H. apply FitsAny_returned in H as (ni & ? & ? & _ & ?).
    by exists ni.
Qed.

(** C4. When the pre-check stage rejects a pod, [CheckPredicates] returns,
    for every node, the same internal error built from the pre-check
    status alone (no plugin name, no debug payload), and the only call made
    to the framework is the pre-check. *)
Theorem CheckPredicates_prefilter_rejection p pod :
  IsSuccess (preFilterResult p pod).1 = false →
  ∀ nodeInfo,
    CheckPredicates p pod nodeInfo =
      (Returned (Some (NewPredicateError InternalPredicateError ""
                         (Message (preFilterResult p pod).1)
                         (Reasons (preFilterResult p pod).1)
                         emptyString)),
       [PreFilterCall pod]).
Proof.
  intros Hrej nodeInfo. rewrite CheckPredicates_unfold.
  destruct (preFilterResult p pod) as [st state]. simpl in *. by rewrite Hrej.
Qed.

(** C8. A rejection returned by [CheckPredicates] that names the
    TaintToleration plugin carries the taints of the node as its debug
    payload; a rejection naming any other plugin carries the empty one. *)
Theorem CheckPredicates_debug_info p pod nodeInfo e :
  outcome (CheckPredicates p pod nodeInfo) = Returned (Some e) →
  (predicateName e = "TaintToleration" →
     ∃ node, NodeInfo_Node nodeInfo = Some node
             ∧ debugInfo e = "taints on node: " +:+ GoSyntax_Taints (Taints (Node_Spec node)))
  ∧ (predicateName e ≠ "TaintToleration" → debugInfo e = emptyString).
Proof.
  rewrite CheckPredicates_unfold.
  destruct (preFilterResult p pod) as [st state]. simpl.
  destruct (IsSuccess st); unfold outcome; simpl.
  - intros H. apply CheckPredicates_range_rejected in H
      as (st' & debug & _ & _ & Hd & ->). simpl.
    by apply buildDebugInfo_returned.
  - intros [= <-]. simpl. split; [done|by intros _].
Qed.

(** C10. [CheckPredicates] does not look at the unschedulable flag: for a
    pod that passes the pre-check and a node marked unschedulable for which
    no filter fails it reports a fit, while [FitsAny], given any map that
    holds this candidate, neither runs the filters on it nor returns its
    key. *)
Theorem CheckPredicates_ignores_unschedulable p pod nodeInfo node :
  IsSuccess (preFilterResult p pod).1 = true →
  NodeInfo_Node nodeInfo = Some node →
  Unschedulable (Node_Spec node) = true →
  everyFilterPasses p (preFilterResult p pod).2 pod nodeInfo →
  outcome (CheckPredicates p pod nodeInfo) = Returned None
  ∧ ∀ nodeInfos name, nodeInfos !! name = Some nodeInfo →
      outcome (FitsAny p pod nodeInfos) ≠ Returned (name, None)
      ∧ FilterCall pod nodeInfo ∉ calls (FitsAny p pod nodeInfos).
Proof.
  intros Hpre Hnode Hflag Hpass. split; [by apply CheckPredicates_fits|].
  intros nodeInfos name Hl.
  destruct (FitsAny_calls p pod nodeInfos) as (filterCalls & Hc & Hall).
  assert (¬ isSchedulable nodeInfo) as Hns.
  { intros (node' & Hn' & Hf'). congruence. }
  split.
  - intros H. apply FitsAny_returned in H as (ni & Hl' & Hs & _).
    rewrite Hl in Hl'. by simplify_eq.
  - rewrite Hc. intros Hin. apply elem_of_cons in Hin as [?|Hin]; [done|].
    rewrite Forall_forall in Hall.
    destruct (Hall _ Hin) as (name' & ni & Heq & _ & Hs). by simplify_eq.
Qed.

(** C1 (amended). On a map all of whose candidates carry a Node, a name
    [FitsAny] returns is the key of a candidate of the map that is not
    marked unschedulable and passes [CheckPredicates]; it returns a name
    exactly when there is such a candidate; when there is none, it returns
    the aggregate no-fit error if the pre-check passed and the pre-check
    error otherwise. *)
Theorem FitsAny_iff_schedulable_node_fits p pod nodeInfos :
  (∀ name nodeInfo, nodeInfos !! name = Some nodeInfo →
     is_Some (NodeInfo_Node nodeInfo)) →
  (∀ name, outcome (FitsAny p pod nodeInfos) = Returned (name, None) →
     ∃ nodeInfo, nodeInfos !! name = Some nodeInfo
                 ∧ isSchedulable nodeInfo
                 ∧ outcome (CheckPredicates p pod nodeInfo) = Returned None)
  ∧ ((∃ name, outcome (FitsAny p pod nodeInfos) = Returned (name, None)) ↔
   (∃ name nodeInfo, nodeInfos !! name = Some nodeInfo
                     ∧ isSchedulable nodeInfo
                     ∧ outcome (CheckPredicates p pod nodeInfo) = Returned None))
  ∧ ((∀ name nodeInfo, nodeInfos !! name = Some nodeInfo → isSchedulable nodeInfo →
        outcome (CheckPredicates p pod nodeInfo) ≠ Returned None) →
     outcome (FitsAny p pod nodeInfos) =
       Returned ("", Some (if IsSuccess (preFilterResult p pod).1
                           then noFitError pod
                           else preFilterError pod (preFilterResult p pod).1))).
Proof.
  intros Hnodes.
  assert (Forall (λ e, is_Some (NodeInfo_Node e.2)) (goRange nodeInfos)) as Hall.
  { apply Forall_forall. intros [k ni] Hin. apply elem_of_goRange in Hin.
    by eapply Hnodes. }
  assert (∀ name, outcome (FitsAny p pod nodeInfos) = Returned (name, None) →
            ∃ nodeInfo, nodeInfos !! name = Some nodeInfo
                        ∧ isSchedulable nodeInfo
                        ∧ outcome (CheckPredicates p pod nodeInfo) = Returned None) as Hname.
  { intros name H. apply FitsAny_returned in H as (ni & Hl & Hs & Hpre & Hp).
    exists ni. split; [done|]. split; [done|].
    by apply CheckPredicates_fits. }
  assert ((∃ name, outcome (FitsAny p pod nodeInfos) = Returned (name, None)) →
          ∃ name nodeInfo, nodeInfos !! name = Some nodeInfo
                     ∧ isSchedulable nodeInfo
                     ∧ outcome (CheckPredicates p pod nodeInfo) = Returned None) as Hfwd.
  { intros [name H]. destruct (Hname name H) as (ni & ?). by exists name, ni. }
  assert ((∀ name nodeInfo, nodeInfos !! name = Some nodeInfo → isSchedulable nodeInfo →
             outcome (CheckPredicates p pod nodeInfo) ≠ Returned None) ∨
          (∃ name, outcome (FitsAny p pod nodeInfos) = Returned (name, None))) as Hcases.
  { rewrite FitsAny_unfold.
    pose proof (λ ni, CheckPredicates_fits p pod ni) as Hfits.
    destruct (preFilterResult p pod) as [st state]. simpl in *.
    destruct (IsSuccess st); unfold outcome at 2; simpl.
    - destruct (FitsAny_range_total p state pod (goRange nodeInfos) Hall)
        as [Hsome|[_ Hnone]]; [by right|left].
      intros name ni Hl Hs Hfit. apply Hfits in Hfit as [_ Hp].
      eapply Hnone; [by apply elem_of_goRange| |]; done.
    - left. intros name ni _ _ Hfit. by apply Hfits in Hfit as [? _]. }
  split; [exact Hname|]. split; [split; [exact Hfwd|]|].
  - intros (name & ni & Hl & Hs & Hfit).
    destruct Hcases as [Hnone|Hsome]; [|done]. by destruct (Hnone name ni).
  - intros Hnone. rewrite FitsAny_unfold.
    pose proof (λ ni, CheckPredicates_fits p pod ni) as Hfits.
    destruct (preFilterResult p pod) as [st state]. simpl in *.
    destruct (IsSuccess st) eqn:Hst; unfold outcome; simpl; [|done].
    destruct (FitsAny_range_total p state pod (goRange nodeInfos) Hall)
      as [[name Hsome]|[Herr _]]; [|done].
    apply FitsAny_range_returned in Hsome as (ni & Hin & Hs & Hp).
    apply elem_of_goRange in Hin. destruct (Hnone name ni Hin Hs).
    by apply Hfits.
Qed.

(** C5. When listing nodes or pods fails, [SnapshotClusterState] returns
    the listing error and the checker it leaves behind is the one it was
    given: the delegate is the snapshot installed before, and every
    [CheckPredicates] and [FitsAny] call answers as it did. *)
Theorem SnapshotClusterState_failure_keeps_snapshot
    (CreateNodeInfoMap : list Pod → list Node → gmap string NodeInfo) p :
  (∃ err, nodeLister p = ListFailed err) ∨ (∃ err, podLister p = ListFailed err) →
  ∃ msg,
    SnapshotClusterState CreateNodeInfoMap p = (p, Some msg)
    ∧ ((∃ err, nodeLister p = ListFailed err ∧ msg = "could not list Nodes; " +:+ err)
       ∨ (∃ err, podLister p = ListFailed err ∧ msg = "could not list Pods; " +:+ err))
    ∧ delegate (delegatingSharedLister (SnapshotClusterState CreateNodeInfoMap p).1)
      = delegate (delegatingSharedLister p)
    ∧ (∀ pod nodeInfo,
         CheckPredicates (SnapshotClusterState CreateNodeInfoMap p).1 pod nodeInfo
         = CheckPredicates p pod nodeInfo)
    ∧ (∀ pod nodeInfos,
         FitsAny (SnapshotClusterState CreateNodeInfoMap p).1 pod nodeInfos
         = FitsAny p pod nodeInfos).
Proof.
  intros Hfail. unfold SnapshotClusterState.
  destruct (nodeLister p) as [nodes|err] eqn:Hn.
  - destruct (podLister p) as [pods|err] eqn:Hp.
    + destruct Hfail as [[? ?]|[? ?]]; done.
    + eexists. split; [done|]. split; [right; by exists err|]. done.
  - eexists. split; [done|]. split; [left; by exists err|]. done.
Qed.

(** On the other path the delegate is replaced by the snapshot built from
    what the listers answered. *)
Lemma SnapshotClusterState_success
    (CreateNodeInfoMap : list Pod → list Node → gmap string NodeInfo) p nodes pods :
  nodeLister p = Listed nodes → podLister p = Listed pods →
  (SnapshotClusterState CreateNodeInfoMap p).2 = None
  ∧ delegate (delegatingSharedLister (SnapshotClusterState CreateNodeInfoMap p).1)
    = NewSnapshot (CreateNodeInfoMap pods nodes).
Proof. intros Hn Hp. unfold SnapshotClusterState. by rewrite Hn, Hp. Qed.

End WithFramework.

(** *** The claims on the concrete chain *)

Section OnTheChain.
Import Instances.

Lemma CheckPredicates_prefilter_rejection_witness :
  let malformed := cpuPod "w" "" (-1) in
  IsSuccess (preFilterResult emptyChecker malformed).1 = false
  ∧ CheckPredicates emptyChecker malformed (onNode (plainNode "n1" 2000))
    = CheckPredicates emptyChecker malformed (onNode (taintedNode "n2" 10)).
Proof.
  intros malformed. split; [reflexivity|].
  pose proof (CheckPredicates_prefilter_rejection (R := sortedRange)
                emptyChecker malformed eq_refl) as Hsame.
  rewrite (Hsame (onNode (plainNode "n1" 2000))).
  rewrite (Hsame (onNode (taintedNode "n2" 10))).
  reflexivity.
Defined.

Lemma CheckPredicates_debug_info_witness :
  let pod := cpuPod "w" "" 100 in
  let large := cpuPod "w" "" 3000 in
  let nodeInfo := onNode (taintedNode "n3" 2000) in
  (∃ e, outcome (CheckPredicates emptyChecker pod nodeInfo) = Returned (Some e)
        ∧ errorType e = NotSchedulablePredicateError
        ∧ predicateName e = "TaintToleration"
        ∧ debugInfo e = "taints on node: " +:+ showTaints [dedicated])
  ∧ (∃ e, outcome (CheckPredicates emptyChecker large nodeInfo) = Returned (Some e)
          ∧ errorType e = NotSchedulablePredicateError
          ∧ predicateName e = "NodeResourcesFit"
          ∧ debugInfo e = "").
Proof.
  intros pod large nodeInfo. split; cycle 1.
  { set (e := NewPredicateError NotSchedulablePredicateError "NodeResourcesFit"
                "Insufficient cpu" ["Insufficient cpu"] "").
    exists e.
    assert (outcome (CheckPredicates emptyChecker large nodeInfo) = Returned (Some e))
      as Hout by (vm_compute; reflexivity).
    split; [exact Hout|]. split; [reflexivity|]. split; [reflexivity|].
    destruct (CheckPredicates_debug_info (R := sortedRange) emptyChecker large nodeInfo e Hout)
      as [_ Hother].
    apply Hother. discriminate. }
  set (e := NewPredicateError NotSchedulablePredicateError "TaintToleration"
              "node(s) had taints that the pod didn't tolerate"
              ["node(s) had taints that the pod didn't tolerate"]
              ("taints on node: " +:+ showTaints [dedicated])).
  exists e.
  assert (outcome (CheckPredicates emptyChecker pod nodeInfo) = Returned (Some e))
    as Hout by (vm_compute; reflexivity).
  split; [exact Hout|]. split; [reflexivity|]. split; [reflexivity|].
  destruct (CheckPredicates_debug_info (R := sortedRange) emptyChecker pod nodeInfo e Hout)
    as [Htaint _].
  destruct (Htaint eq_refl) as (node & Hnode & Hdebug).
  injection Hnode as <-. exact Hdebug.
Defined.

Lemma CheckPredicates_ignores_unschedulable_witness :
  let pod := cpuPod "w" "" 100 in
  let cordoned := onNode (cordonedNode "n1" 2000) in
  outcome (CheckPredicates emptyChecker pod cordoned) = Returned None
  ∧ outcome (FitsAny emptyChecker pod threeNodes) ≠ Returned ("n1", None)
  ∧ FilterCall pod cordoned ∉ calls (FitsAny emptyChecker pod threeNodes).
Proof.
  intros pod cordoned.
  destruct (CheckPredicates_ignores_unschedulable (R := sortedRange)
              emptyChecker pod cordoned (cordonedNode "n1" 2000)) as [Hfit Hskip].
  - reflexivity.
  - reflexivity.
  - reflexivity.
  - apply allSucceed_everyFilterPasses. vm_compute. reflexivity.
  - split; [exact Hfit|]. apply (Hskip threeNodes "n1"). vm_compute. reflexivity.
Defined.

Lemma FitsAny_iff_schedulable_node_fits_witness :
  let pod := cpuPod "w" "" 100 in
  (∀ name nodeInfo, threeNodes !! name = Some nodeInfo →
     is_Some (NodeInfo_Node nodeInfo))
  ∧ ∃ name, outcome (FitsAny (R := reversedRange) emptyChecker pod threeNodes)
            = Returned (name, None).
Proof.
  intros pod.
  assert (∀ name nodeInfo, threeNodes !! name = Some nodeInfo →
            is_Some (NodeInfo_Node nodeInfo)) as Hnodes.
  { intros name nodeInfo H. unfold threeNodes in H.
    apply lookup_insert_Some in H as [[_ <-]|[_ H]]; [by eexists|].
    apply lookup_insert_Some in H as [[_ <-]|[_ H]]; [by eexists|].
    apply lookup_singleton_Some in H as [_ <-]. by eexists. }
  split; [exact Hnodes|].
  destruct (FitsAny_iff_schedulable_node_fits (R := reversedRange)
              emptyChecker pod threeNodes Hnodes) as (_ & [_ Hback] & _).
  apply Hback. exists "n2", (onNode (plainNode "n2" 2000)).
  split; [vm_compute; reflexivity|].
  split; [by exists (plainNode "n2" 2000) | vm_compute; reflexivity].
Defined.

(** Which of several fitting candidates is returned depends on the order
    in which the map is visited. *)
Example FitsAny_depends_on_range_order :
  outcome (FitsAny (R := sortedRange) emptyChecker (cpuPod "w" "" 100) fourNodes)
    = Returned ("n2", None)
  ∧ outcome (FitsAny (R := reversedRange) emptyChecker (cpuPod "w" "" 100) fourNodes)
    = Returned ("n4", None).
Proof. split; vm_compute; reflexivity. Qed.

(** C1, as worded, fails on the code in three ways, shown on the chain
    shaped like the default provider: a cordoned node passes
    [CheckPredicates] for a pod that tolerates the unschedulable taint, yet
    [FitsAny] skips it and returns no name; a pod the pre-check rejects
    (an affinity term with an invalid selector) gets the pre-check error,
    not the aggregate one; and a candidate without a Node makes [FitsAny]
    panic. *)
Lemma FitsAny_not_iff_any_node_fits :
  ¬ fitsAny_iff_some_node_fits defaultChecker daemonPod
      {[ "n1" := onNode (cordonedAndTainted "n1" 2000) ]}
  ∧ ¬ fitsAny_iff_some_node_fits defaultChecker badAffinityPod
        {[ "n2" := onNode (plainNode "n2" 2000) ]}
  ∧ ¬ fitsAny_iff_some_node_fits defaultChecker (cpuPod "w" "" 100)
        {[ "n0" := NewNodeInfo ]}.
Proof.
  split; [|split].
  - intros [[_ Hback] _]. destruct Hback as [name Hname].
    + exists "n1", (onNode (cordonedAndTainted "n1" 2000)).
      split; [apply lookup_singleton_eq | vm_compute; reflexivity].
    + vm_compute in Hname. discriminate.
  - intros [_ Hnone].
    assert (outcome (FitsAny defaultChecker badAffinityPod
                       {[ "n2" := onNode (plainNode "n2" 2000) ]})
            = Returned ("", Some (noFitError badAffinityPod))) as H.
    { apply Hnone. intros name nodeInfo Hl.
      apply lookup_singleton_Some in Hl as [_ <-]. vm_compute. discriminate. }
    vm_compute in H. discriminate.
  - intros [_ Hnone].
    assert (outcome (FitsAny defaultChecker (cpuPod "w" "" 100) {[ "n0" := NewNodeInfo ]})
            = Returned ("", Some (noFitError (cpuPod "w" "" 100)))) as H.
    { apply Hnone. intros name nodeInfo Hl.
      apply lookup_singleton_Some in Hl as [_ <-]. vm_compute. discriminate. }
    vm_compute in H. discriminate.
Qed.

Lemma SnapshotClusterState_failure_keeps_snapshot_witness :
  let pod := cpuPod "w" "" 100 in
  (∃ err, nodeLister staleChecker = ListFailed err)
  ∧ SnapshotClusterState Scheduler.CreateNodeNameToInfoMap staleChecker
    = (staleChecker, Some "could not list Nodes; connection refused")
  ∧ outcome (CheckPredicates
               (SnapshotClusterState Scheduler.CreateNodeNameToInfoMap staleChecker).1
               pod (onNode (plainNode "n1" 2000)))
    = outcome (CheckPredicates staleChecker pod (onNode (plainNode "n1" 2000))).
Proof.
  intros pod.
  assert (∃ err, nodeLister staleChecker = ListFailed err) as Hfail
    by (by exists "connection refused").
  split; [exact Hfail|].
  destruct (SnapshotClusterState_failure_keeps_snapshot (R := sortedRange)
              Scheduler.CreateNodeNameToInfoMap staleChecker (or_introl Hfail))
    as (msg & Hsame & _ & _ & Hcheck & _).
  split; [reflexivity|]. by rewrite Hcheck.
Defined.

End OnTheChain.
End SimulatorFacts.

(** ** daemonset: the pods a node would carry *)

Module DaemonsetFacts.
Import Simulator Daemonset.

Section WithRand.
Context {RS : RandSource}.

(** [newPod] always returns, and what it returns is the pod the
    specification describes, named after the number it drew. *)
Lemma newPod_spec ds nodeName s :
  newPod ds nodeName s =
    (Returned (syntheticPod ds nodeName (Int63 s).1), (Int63 s).2).
Proof.
  unfold newPod, mbind, Rand_bind, rand_Int63, mret, Rand_ret.
  by destruct (Int63 s).
Qed.

Lemma podNameFor_inj name n n' : podNameFor name n = podNameFor name n' → n = n'.
Proof.
  unfold podNameFor. intros H.
  apply (inj (String.app name)) in H. apply (inj (String.app "-pod-")) in H.
  by apply (inj pretty) in H.
Qed.

Lemma synthesize_length daemonsets nodeName s :
  length (synthesize daemonsets nodeName s) = length daemonsets.
Proof.
  revert s. induction daemonsets as [|ds rest IH]; intros s; [done|].
  simpl. destruct (Int63 s) as [n s']. simpl. by rewrite IH.
Qed.

Lemma synthesize_pods daemonsets nodeName s :
  Forall2 (λ ds pod, ∃ n, 0 ≤ n < 2 ^ 63 ∧ pod = syntheticPod ds nodeName n)
          daemonsets (synthesize daemonsets nodeName s).
Proof.
  revert s. induction daemonsets as [|ds rest IH]; intros s; [constructor|].
  simpl. pose proof (Int63_range s) as Hr.
  destruct (Int63 s) as [n s']. constructor; [by exists n | apply IH].
Qed.

Section WithChecker.
Context {P : PredicateChecker}.

(** The loop keeps, in order, the synthetic pods the checker accepts. *)
Lemma GetDaemonSetPodsForNode_range_spec clusterSnapshot nodeInfo node daemonsets result s :
  NodeInfo_Node nodeInfo = Some node →
  GetDaemonSetPodsForNode_range clusterSnapshot nodeInfo daemonsets result s =
    (Returned (result ++ filter (λ pod, fitsNode clusterSnapshot (Node_Name node) pod = true)
                           (synthesize daemonsets (Node_Name node) s)),
     draws (length daemonsets) s).
Proof.
  intros Hnode. revert result s.
  induction daemonsets as [|ds rest IH]; intros result s.
  - simpl. unfold mret, Rand_ret. by rewrite app_nil_r.
  - simpl. unfold mbind, Rand_bind, node_of. rewrite Hnode, newPod_spec.
    destruct (Int63 s) as [n s'] eqn:Hdraw. simpl.
    unfold fitsNode at 1.
    destruct (CheckPredicates clusterSnapshot (syntheticPod ds (Node_Name node) n)
                (FakeNodeInfoForNodeName (Node_Name node))) eqn:Hcheck.
    + rewrite IH. rewrite filter_cons_False; [done|].
      unfold fitsNode. by rewrite Hcheck.
    + rewrite IH. rewrite filter_cons_True.
      * by rewrite <- (assoc_L (++)).
      * unfold fitsNode. by rewrite Hcheck.
Qed.

(** C6 (amended). For a node template that carries a Node and is accepted
    by the fresh snapshot, [GetDaemonSetPodsForNode] synthesizes one pod
    per daemonset, in order, drawing one number for each: namespace of the
    daemonset, metadata and spec of its pod template with the node name set
    to the node, and the name [<daemonset name>-pod-<n>] built from the
    number drawn (names are not guaranteed to differ); and it returns
    exactly those synthetic pods, in order, for which [CheckPredicates] on
    the snapshot and the node reports a fit. *)
Theorem GetDaemonSetPodsForNode_keeps_fitting_pods nodeInfo node daemonsets
    clusterSnapshot s :
  NodeInfo_Node nodeInfo = Some node →
  AddNodeWithPods NewBasicClusterSnapshot (NodeInfo_Node nodeInfo)
                  (NodeInfo_Pods nodeInfo) = (clusterSnapshot, None) →
  let pods := synthesize daemonsets (Node_Name node) s in
  length pods = length daemonsets
  ∧ Forall2 (λ ds pod,
       Namespace (Pod_ObjectMeta pod) = Namespace (DaemonSet_ObjectMeta ds)
       ∧ Pod_Spec pod = set_NodeName (Template_Spec (DaemonSet_Template ds)) (Node_Name node)
       ∧ NodeName (Pod_Spec pod) = Node_Name node
       ∧ ∃ n, 0 ≤ n < 2 ^ 63
              ∧ Pod_Name pod = Name (DaemonSet_ObjectMeta ds) +:+ "-pod-" +:+ pretty n)
     daemonsets pods
  ∧ GetDaemonSetPodsForNode nodeInfo daemonsets s =
      (Returned (filter (λ pod, CheckPredicates clusterSnapshot pod
                                  (FakeNodeInfoForNodeName (Node_Name node)) = None)
                        pods,
                 None),
       draws (length daemonsets) s).
Proof.
  intros Hnode Hadd pods. split; [apply synthesize_length|]. split.
  - eapply Forall2_impl; [apply synthesize_pods|].
    intros ds pod (n & Hn & ->). simpl. repeat split. by exists n.
  - unfold GetDaemonSetPodsForNode. rewrite Hadd.
    unfold mbind, Rand_bind.
    rewrite (GetDaemonSetPodsForNode_range_spec _ _ node) by done. simpl.
    unfold mret, Rand_ret. do 2 f_equal. f_equal.
    apply list_filter_iff. intros pod. unfold fitsNode.
    by destruct (CheckPredicates _ _ _).
Qed.

(** When the fresh snapshot refuses the node, that error is returned and
    no pod is synthesized. *)
Lemma GetDaemonSetPodsForNode_add_failure nodeInfo daemonsets clusterSnapshot err s :
  AddNodeWithPods NewBasicClusterSnapshot (NodeInfo_Node nodeInfo)
                  (NodeInfo_Pods nodeInfo) = (clusterSnapshot, Some err) →
  GetDaemonSetPodsForNode nodeInfo daemonsets s = (Returned ([], Some err), s).
Proof. intros Hadd. unfold GetDaemonSetPodsForNode. by rewrite Hadd. Qed.

End WithChecker.

(** C7 (amended). A synthesis call always returns a pod named
    [<daemonset name>-pod-<n>], [n] being the number the generator yields
    at that call; two calls for one daemonset get different names exactly
    when the numbers drawn differ. *)
Theorem newPod_names_differ_iff_draws_differ ds nodeName nodeName' s1 s2 :
  ∃ pod1 pod2,
    (newPod ds nodeName s1).1 = Returned pod1
    ∧ (newPod ds nodeName' s2).1 = Returned pod2
    ∧ Pod_Name pod1 = podNameFor (Name (DaemonSet_ObjectMeta ds)) (Int63 s1).1
    ∧ Pod_Name pod2 = podNameFor (Name (DaemonSet_ObjectMeta ds)) (Int63 s2).1
    ∧ (Pod_Name pod1 ≠ Pod_Name pod2 ↔ (Int63 s1).1 ≠ (Int63 s2).1).
Proof.
  exists (syntheticPod ds nodeName (Int63 s1).1), (syntheticPod ds nodeName' (Int63 s2).1).
  rewrite !newPod_spec. repeat split; try done.
  - intros Hne Heq. apply Hne. unfold Pod_Name. simpl. by rewrite Heq.
  - intros Hne Heq. apply Hne. unfold Pod_Name in Heq. simpl in Heq.
    by apply podNameFor_inj in Heq.
Qed.

End WithRand.

Section OnTheChain.
Import Instances.

Lemma GetDaemonSetPodsForNode_keeps_fitting_pods_witness :
  let nodeInfo := onNode (taintedNode "n3" 2000) in
  let daemonsets := [tolerant "logging"; intolerant "metrics"; tolerant "proxy"] in
  NodeInfo_Node nodeInfo = Some (taintedNode "n3" 2000)
  ∧ (GetDaemonSetPodsForNode nodeInfo daemonsets 7).1
    = Returned ([syntheticPod (tolerant "logging") "n3" 6;
                 syntheticPod (tolerant "proxy") "n3" 8], None).
Proof.
  intros nodeInfo daemonsets. split; [reflexivity|].
  destruct (GetDaemonSetPodsForNode_keeps_fitting_pods (RS := lcg) (P := chainChecker)
              nodeInfo (taintedNode "n3" 2000) daemonsets
              {[ "n3" := nodeInfo ]} 7 eq_refl eq_refl) as (_ & _ & Hresult).
  rewrite Hresult. vm_compute. reflexivity.
Defined.

(** C7, as worded, fails: the generator may repeat a number.  On the
    sixteen-step generator the first and the seventeenth draw coincide, and
    so do the names built from them. *)
Lemma newPod_names_can_collide : ¬ names_never_collide (RS := lcg).
Proof.
  intros Hnever.
  apply (Hnever (tolerant "logging") "n3" "n3" 7 15%nat
           (syntheticPod (tolerant "logging") "n3" 6)
           (syntheticPod (tolerant "logging") "n3" 6) 6 6);
    vm_compute; reflexivity.
Qed.

End OnTheChain.
End DaemonsetFacts.

(** ** utils/scheduler: further properties of the node-name-to-info map *)

Module SchedulerMapFacts.
Import Scheduler SchedulerFacts.

(** X1. The map [CreateNodeNameToInfoMap] builds does not depend on the
    order in which the clean-up loop visits the intermediate map. *)
Theorem CreateNodeNameToInfoMap_any_order (R1 R2 : GoMapRange) pods nodes :
  CreateNodeNameToInfoMap (R := R1) pods nodes
  = CreateNodeNameToInfoMap (R := R2) pods nodes.
Proof.
  apply map_eq. intros key.
  by rewrite (CreateNodeNameToInfoMap_lookup (R := R1)),
             (CreateNodeNameToInfoMap_lookup (R := R2)).
Qed.

Section WithRange.
Context {R : GoMapRange}.

(** X2. An entry of the result belongs to an input node of that name and
    lists exactly the input pods filed under the key, in input order and
    with their multiplicity. *)
Theorem CreateNodeNameToInfoMap_entry pods nodes key ni :
  CreateNodeNameToInfoMap pods nodes !! key = Some ni →
  (∃ node, NodeInfo_Node ni = Some node ∧ node ∈ nodes ∧ Node_Name node = key)
  ∧ NodeInfo_Pods ni = filter (λ pod, podNodeName pod = key) pods.
Proof.
  rewrite CreateNodeNameToInfoMap_lookup.
  destruct (nodeNamed key nodes) as [node|] eqn:Hn; [|done].
  intros [= <-]. apply nodeNamed_Some in Hn as [Hin Hname].
  split; [by exists node | done].
Qed.

(** X3. When several input nodes carry the same name, the entry keeps the
    one that comes last in the input. *)
Theorem CreateNodeNameToInfoMap_last_node_wins pods before node after :
  (∀ later, later ∈ after → Node_Name later ≠ Node_Name node) →
  ∃ ni, CreateNodeNameToInfoMap pods (before ++ node :: after) !! Node_Name node = Some ni
        ∧ NodeInfo_Node ni = Some node.
Proof.
  intros Hafter. eexists. rewrite CreateNodeNameToInfoMap_lookup.
  assert (nodeNamed (Node_Name node) (before ++ node :: after) = Some node) as ->; [|done].
  unfold nodeNamed. rewrite filter_app, filter_cons_True by done.
  assert (filter (λ n, Node_Name n = Node_Name node) after = []) as ->.
  { induction after as [|later after IH]; [done|].
    rewrite filter_cons_False.
    - apply IH. intros l Hl. apply Hafter. by apply list_elem_of_further.
    - apply Hafter, list_elem_of_here. }
  by rewrite last_snoc.
Qed.

(** X4. The keys of the result are exactly the names of the input nodes,
    whatever the pods are. *)
Theorem CreateNodeNameToInfoMap_dom pods nodes :
  dom (CreateNodeNameToInfoMap pods nodes) = list_to_set (Node_Name <$> nodes).
Proof.
  apply set_eq. intros key.
  rewrite elem_of_dom, elem_of_list_to_set, list_elem_of_fmap,
    CreateNodeNameToInfoMap_lookup.
  split.
  - destruct (nodeNamed key nodes) as [node|] eqn:Hn; [|by intros [? ?]].
    intros _. apply nodeNamed_Some in Hn as [Hin Hname]. by exists node.
  - intros (node & -> & Hin).
    destruct (nodeNamed_is_Some (Node_Name node) nodes node Hin eq_refl) as [n ->].
    by eexists.
Qed.

(** X5. A pod listed in an entry is an input pod and the key of the entry
    is its node name, or its nominated node name when the node name is
    empty; so no pod is listed under two keys. *)
Theorem CreateNodeNameToInfoMap_pod_placement pods nodes key ni pod :
  CreateNodeNameToInfoMap pods nodes !! key = Some ni →
  pod ∈ NodeInfo_Pods ni →
  pod ∈ pods
  ∧ key = (if decide (NodeName (Pod_Spec pod) = "")
           then NominatedNodeName (Pod_Status pod)
           else NodeName (Pod_Spec pod))
  ∧ ∀ key' ni', CreateNodeNameToInfoMap pods nodes !! key' = Some ni' →
                pod ∈ NodeInfo_Pods ni' → key' = key.
Proof.
  assert (∀ k n, CreateNodeNameToInfoMap pods nodes !! k = Some n →
                 pod ∈ NodeInfo_Pods n → pod ∈ pods ∧ podNodeName pod = k) as Hplace.
  { intros k n. rewrite CreateNodeNameToInfoMap_lookup.
    destruct (nodeNamed k nodes); [|done]. intros [= <-]. simpl.
    intros Hin. by apply list_elem_of_filter in Hin as [? ?]. }
  intros Hl Hin. destruct (Hplace key ni Hl Hin) as [Hpod Hkey].
  split; [done|]. split; [by rewrite <- Hkey|].
  intros key' ni' Hl' Hin'. destruct (Hplace key' ni' Hl' Hin') as [_ Hkey'].
  congruence.
Qed.

End WithRange.

Section OnTheCluster.
Import Instances.

Lemma CreateNodeNameToInfoMap_entry_witness :
  let pods := [cpuPod "a" "n1" 5; cpuPod "x" "n2" 1; nominatedPod "b" "n1" 6;
               cpuPod "c" "gone" 1] in
  let nodes := [plainNode "n1" 100; plainNode "n2" 100] in
  CreateNodeNameToInfoMap pods nodes !! "n1"
    = Some (mkNodeInfo (Some (plainNode "n1" 100))
                       [cpuPod "a" "n1" 5; nominatedPod "b" "n1" 6])
  ∧ NodeInfo_Pods (mkNodeInfo (Some (plainNode "n1" 100))
                              [cpuPod "a" "n1" 5; nominatedPod "b" "n1" 6])
    = filter (λ pod, podNodeName pod = "n1") pods.
Proof.
  intros pods nodes.
  assert (CreateNodeNameToInfoMap pods nodes !! "n1"
          = Some (mkNodeInfo (Some (plainNode "n1" 100))
                             [cpuPod "a" "n1" 5; nominatedPod "b" "n1" 6])) as Hl
    by (vm_compute; reflexivity).
  split; [exact Hl|].
  exact (proj2 (CreateNodeNameToInfoMap_entry (R := sortedRange) pods nodes "n1" _ Hl)).
Defined.

Lemma CreateNodeNameToInfoMap_last_node_wins_witness :
  let small := plainNode "n1" 100 in
  let large := plainNode "n1" 4000 in
  ∃ ni, CreateNodeNameToInfoMap [cpuPod "a" "n1" 5]
          ([small] ++ large :: [plainNode "n2" 100]) !! "n1" = Some ni
        ∧ NodeInfo_Node ni = Some large.
Proof.
  intros small large.
  apply (CreateNodeNameToInfoMap_last_node_wins (R := sortedRange)
           [cpuPod "a" "n1" 5] [small] large [plainNode "n2" 100]).
  intros later Hin. apply list_elem_of_singleton in Hin as ->. discriminate.
Defined.

Lemma CreateNodeNameToInfoMap_pod_placement_witness :
  let waiting := nominatedPod "b" "n1" 6 in
  let pods := [cpuPod "a" "n1" 5; waiting] in
  let nodes := [plainNode "n1" 100; plainNode "n2" 100] in
  CreateNodeNameToInfoMap pods nodes !! "n1"
    = Some (mkNodeInfo (Some (plainNode "n1" 100)) pods)
  ∧ waiting ∈ pods
  ∧ "n1" = NominatedNodeName (Pod_Status waiting).
Proof.
  intros waiting pods nodes.
  assert (CreateNodeNameToInfoMap pods nodes !! "n1"
          = Some (mkNodeInfo (Some (plainNode "n1" 100)) pods)) as Hl
    by (vm_compute; reflexivity).
  split; [exact Hl|].
  destruct (CreateNodeNameToInfoMap_pod_placement (R := sortedRange)
              pods nodes "n1" _ waiting Hl) as (Hin & Hkey & _).
  - apply list_elem_of_further, list_elem_of_here.
  - split; [exact Hin | exact Hkey].
Defined.

End OnTheCluster.
End SchedulerMapFacts.

(** ** utils/scheduler: resource lists *)

Module SchedulerResourcesFacts.
Import SchedulerResources.

Section WithRange.
Context {R : GoMapRange}.

Lemma setScalar_lookup result rName rQuant name :
  setScalar result (rName, rQuant) !! name =
    if decide (rName = name) then Some (scalarQuantity rName rQuant)
    else result !! name.
Proof.
  unfold setScalar, scalarQuantity.
  destruct (isHugePageResourceName rName); by rewrite lookup_insert.
Qed.

(** Inserting the scalars one by one, on distinct names, reads like a
    lookup in the scalar map first and in the starting map second. *)
Lemma scalars_loop_lookup (entries : list (string * Z)) result name :
  NoDup entries.*1 →
  foldl setScalar result entries !! name =
    match (list_to_map entries : gmap string Z) !! name with
    | Some rQuant => Some (scalarQuantity name rQuant)
    | None => result !! name
    end.
Proof.
  revert result. induction entries as [|[k v] rest IH]; intros result Hnd; [done|].
  apply NoDup_cons in Hnd as [Hk Hnd].
  change (foldl setScalar result ((k, v) :: rest))
    with (foldl setScalar (setScalar result (k, v)) rest).
  rewrite IH by done. rewrite setScalar_lookup, list_to_map_cons.
  destruct (decide (k = name)) as [->|Hne].
  - rewrite lookup_insert_eq.
    by rewrite (not_elem_of_list_to_map_1 (M := gmap string)).
  - by rewrite lookup_insert_ne.
Qed.

Lemma literal_lookup (r : Resource) name :
  ({[ ResourceCPU := NewMilliQuantity (Resource_MilliCPU r) DecimalSI;
      ResourceMemory := NewQuantity (Resource_Memory r) BinarySI;
      ResourcePods := NewQuantity (Resource_AllowedPodNumber r) BinarySI;
      ResourceEphemeralStorage := NewQuantity (Resource_EphemeralStorage r) BinarySI ]}
     : gmap string Quantity) !! name = basicQuantity r name.
Proof.
  unfold basicQuantity, ResourceCPU, ResourceMemory, ResourcePods,
    ResourceEphemeralStorage.
  repeat (case_decide; [subst name; by simplify_map_eq|]).
  by simplify_map_eq.
Qed.

(** X6. Every scalar resource is listed under its own name with its
    amount, in binary format if the name starts with "hugepages-" and in
    decimal format otherwise; it replaces a basic resource of the same
    name.  A name that is no scalar resource is listed only if it is one of
    cpu (in milli-units), memory, pods and ephemeral-storage. *)
Theorem ResourceToResourceList_lookup (r : Resource) name :
  ResourceToResourceList r !! name =
    match Resource_ScalarResources r !! name with
    | Some rQuant =>
      Some (NewQuantity rQuant
              (if isHugePageResourceName name then BinarySI else DecimalSI))
    | None => basicQuantity r name
    end.
Proof.
  unfold ResourceToResourceList.
  assert (NoDup (goRange (Resource_ScalarResources r)).*1) as Hnd.
  { rewrite goRange_perm. apply NoDup_fst_map_to_list. }
  rewrite scalars_loop_lookup by done.
  assert ((list_to_map (goRange (Resource_ScalarResources r)) : gmap string Z)
          = Resource_ScalarResources r) as ->.
  { rewrite (list_to_map_proper _ (map_to_list (Resource_ScalarResources r)));
      [apply list_to_map_to_list | done | apply goRange_perm]. }
  destruct (Resource_ScalarResources r !! name); [done|]. apply literal_lookup.
Qed.

(** X27. The names listed are the four basic ones together with the
    names of the scalar resources: nothing is dropped and nothing else is
    added. *)
Theorem ResourceToResourceList_dom (r : Resource) :
  dom (ResourceToResourceList r)
  = {[ "cpu"; "memory"; "pods"; "ephemeral-storage" ]} ∪ dom (Resource_ScalarResources r).
Proof.
  apply set_eq. intros name.
  rewrite elem_of_dom, ResourceToResourceList_lookup, elem_of_union, elem_of_dom.
  rewrite !elem_of_union, !elem_of_singleton.
  destruct (Resource_ScalarResources r !! name) as [q|] eqn:Hq.
  - split; [intros _; right; by eexists | by eexists].
  - unfold basicQuantity, ResourceCPU, ResourceMemory, ResourcePods,
      ResourceEphemeralStorage.
    repeat case_decide.
    + split; [intros _; left; tauto | by eexists].
    + split; [intros _; left; tauto | by eexists].
    + split; [intros _; left; tauto | by eexists].
    + split; [intros _; left; tauto | by eexists].
    + split; [by intros [? ?]|]. intros [Hin|[? ?]]; [exfalso; tauto | done].
Qed.

End WithRange.

(** X7. The resource list does not depend on the order in which the
    scalar resources are visited. *)
Theorem ResourceToResourceList_any_order (R1 R2 : GoMapRange) (r : Resource) :
  ResourceToResourceList (R := R1) r = ResourceToResourceList (R := R2) r.
Proof.
  apply map_eq. intros name.
  assert (∀ R : GoMapRange, NoDup (goRange (Resource_ScalarResources r)).*1) as Hnd.
  { intros R. rewrite goRange_perm. apply NoDup_fst_map_to_list. }
  assert (∀ R : GoMapRange,
            (list_to_map (goRange (Resource_ScalarResources r)) : gmap string Z)
            = Resource_ScalarResources r) as Hmap.
  { intros R.
    rewrite (list_to_map_proper _ (map_to_list (Resource_ScalarResources r)));
      [apply list_to_map_to_list | apply Hnd | apply goRange_perm]. }
  unfold ResourceToResourceList.
  by rewrite !scalars_loop_lookup, !Hmap by apply Hnd.
Qed.

(** A run on a resource with huge pages and an extended resource. *)
Example ResourceToResourceList_sample :
  ResourceToResourceList Instances.sampleResource !! "hugepages-2Mi"
    = Some (NewQuantity 1024 BinarySI)
  ∧ ResourceToResourceList Instances.sampleResource !! "example.com/gpu"
    = Some (NewQuantity 2 DecimalSI)
  ∧ ResourceToResourceList Instances.sampleResource !! "cpu"
    = Some (NewMilliQuantity 4000 DecimalSI)
  ∧ ResourceToResourceList Instances.sampleResource !! "nvidia.com/gpu" = None.
Proof. repeat split; vm_compute; reflexivity. Qed.

End SchedulerResourcesFacts.

(** ** utils/scheduler: copies of a template node *)

Module SchedulerTemplatesFacts.
Import Simulator SchedulerTemplates.

Section WithUUID.
Context {U : UUIDSource}.

Lemma copyPods_spec podInfos suffix nodeInfo s :
  copyPods podInfos suffix nodeInfo s =
    (Returned (mkTemplateNodeInfo (Template_Node nodeInfo)
                 (Template_Pods nodeInfo
                  ++ zip_with (renamedPod suffix) podInfos (uuids (length podInfos) s))),
     uuidsAfter (length podInfos) s).
Proof.
  revert nodeInfo s. induction podInfos as [|podInfo rest IH]; intros nodeInfo s.
  - simpl. unfold mret, Gen_ret. rewrite app_nil_r. by destruct nodeInfo.
  - simpl. unfold mbind, Gen_bind, uuid_NewUUID.
    destruct (NewUUID s) as [uid s'] eqn:Hdraw. simpl.
    rewrite IH. simpl. by rewrite <- (assoc_L (++)).
Qed.

Lemma DeepCopyTemplateNode_spec nodeTemplate template suffix s :
  Template_Node nodeTemplate = Some template →
  DeepCopyTemplateNode nodeTemplate suffix s =
    (Returned (mkTemplateNodeInfo
                 (Some (mkWithUID
                          (Node_set_Label
                             (Node_set_Name (object template)
                                (suffixed (Node_Name (object template)) suffix))
                             "kubernetes.io/hostname"
                             (suffixed (Node_Name (object template)) suffix))
                          (NewUUID s).1))
                 (zip_with (renamedPod suffix) (Template_Pods nodeTemplate)
                    (uuids (length (Template_Pods nodeTemplate)) (NewUUID s).2))),
     uuidsAfter (S (length (Template_Pods nodeTemplate))) s).
Proof.
  intros Hnode. unfold DeepCopyTemplateNode, mbind, Gen_bind, nonNil, uuid_NewUUID.
  rewrite Hnode. destruct (NewUUID s) as [uid s'] eqn:Hdraw.
  rewrite copyPods_spec. simpl. by rewrite Hdraw.
Qed.

Lemma suffixed_inj name suffix suffix' :
  suffixed name suffix = suffixed name suffix' → suffix = suffix'.
Proof.
  unfold suffixed. intros H.
  apply (inj (String.app name)) in H. by apply (inj (String.app "-")) in H.
Qed.

(** X8. [DeepCopyTemplateNode] returns a copy exactly when the template
    carries a Node; it then draws one identifier for the node and one per
    pod, and on a template without a Node it panics before drawing any. *)
Theorem DeepCopyTemplateNode_returns_iff_node nodeTemplate suffix s :
  (is_Some (Template_Node nodeTemplate) ↔
   ∃ copy, (DeepCopyTemplateNode nodeTemplate suffix s).1 = Returned copy)
  ∧ (is_Some (Template_Node nodeTemplate) →
     (DeepCopyTemplateNode nodeTemplate suffix s).2
     = uuidsAfter (S (length (Template_Pods nodeTemplate))) s)
  ∧ (Template_Node nodeTemplate = None →
     DeepCopyTemplateNode nodeTemplate suffix s = (NilPointerPanic, s)).
Proof.
  destruct (Template_Node nodeTemplate) as [template|] eqn:Hnode.
  - rewrite (DeepCopyTemplateNode_spec _ template) by done. simpl.
    split; [|split]; [|done|done]. split; [by eexists | by eexists].
  - assert (DeepCopyTemplateNode nodeTemplate suffix s = (NilPointerPanic, s)) as ->.
    { unfold DeepCopyTemplateNode, mbind, Gen_bind, nonNil. by rewrite Hnode. }
    split; [|split]; [|by intros [? ?]|done].
    split; [by intros [? ?] | by intros [? ?]].
Qed.

(** X9. The node of the copy is the template's node renamed to
    [<name>-<suffix>], with the first identifier drawn as UID, its
    "kubernetes.io/hostname" label set to the new name, and every other
    label, the spec and the capacity as in the template. *)
Theorem DeepCopyTemplateNode_node nodeTemplate template suffix s :
  Template_Node nodeTemplate = Some template →
  ∃ copy node,
    (DeepCopyTemplateNode nodeTemplate suffix s).1 = Returned copy
    ∧ Template_Node copy = Some node
    ∧ UID node = (NewUUID s).1
    ∧ Node_Name (object node) = Node_Name (object template) +:+ "-" +:+ suffix
    ∧ (list_to_map (Labels (Node_ObjectMeta (object node))) : gmap string string)
      = <["kubernetes.io/hostname" := Node_Name (object node)]>
          (list_to_map (Labels (Node_ObjectMeta (object template))))
    ∧ Node_Spec (object node) = Node_Spec (object template)
    ∧ Node_AllocatableMilliCPU (object node) = Node_AllocatableMilliCPU (object template).
Proof.
  intros Hnode. eexists _, _.
  rewrite (DeepCopyTemplateNode_spec _ template) by done. simpl.
  repeat split. apply list_to_map_to_list.
Qed.

Lemma renamed_pods_spec suffix (podInfos : list (WithUID Pod)) s :
  let copies := zip_with (renamedPod suffix) podInfos (uuids (length podInfos) s) in
  length copies = length podInfos
  ∧ UID <$> copies = uuids (length podInfos) s
  ∧ Forall2 (λ original new,
       Pod_Name (object new) = Pod_Name (object original) +:+ "-" +:+ suffix
       ∧ Pod_Spec (object new) = Pod_Spec (object original)
       ∧ Pod_Status (object new) = Pod_Status (object original)
       ∧ Namespace (Pod_ObjectMeta (object new))
         = Namespace (Pod_ObjectMeta (object original))
       ∧ Labels (Pod_ObjectMeta (object new))
         = Labels (Pod_ObjectMeta (object original)))
     podInfos copies.
Proof.
  revert s. induction podInfos as [|podInfo rest IH]; intros s.
  - repeat split. constructor.
  - destruct (IH (NewUUID s).2) as (Hlen & Huid & Hall). simpl in *.
    split; [by f_equal|]. split; [by f_equal|].
    constructor; [done | exact Hall].
Qed.

(** X10. The pods of the copy are the template's pods, in order and in
    number, each renamed to [<name>-<suffix>] with the identifiers drawn
    after the node's as UIDs; spec and status are untouched, so a copied
    pod still names the node its original named. *)
Theorem DeepCopyTemplateNode_pods nodeTemplate template suffix s :
  Template_Node nodeTemplate = Some template →
  ∃ copy,
    (DeepCopyTemplateNode nodeTemplate suffix s).1 = Returned copy
    ∧ length (Template_Pods copy) = length (Template_Pods nodeTemplate)
    ∧ UID <$> Template_Pods copy
      = uuids (length (Template_Pods nodeTemplate)) (NewUUID s).2
    ∧ Forall2 (λ original new,
         Pod_Name (object new) = Pod_Name (object original) +:+ "-" +:+ suffix
         ∧ Pod_Spec (object new) = Pod_Spec (object original)
         ∧ Pod_Status (object new) = Pod_Status (object original)
         ∧ Namespace (Pod_ObjectMeta (object new))
           = Namespace (Pod_ObjectMeta (object original))
         ∧ Labels (Pod_ObjectMeta (object new))
           = Labels (Pod_ObjectMeta (object original)))
       (Template_Pods nodeTemplate) (Template_Pods copy).
Proof.
  intros Hnode. eexists.
  rewrite (DeepCopyTemplateNode_spec _ template) by done. simpl.
  split; [done|]. apply renamed_pods_spec.
Qed.

(** X11. Two copies of one template made with different suffixes differ
    in the name of the node and in the name of every pod. *)
Theorem DeepCopyTemplateNode_suffixes_separate nodeTemplate suffix suffix' s s' copy copy' :
  suffix ≠ suffix' →
  (DeepCopyTemplateNode nodeTemplate suffix s).1 = Returned copy →
  (DeepCopyTemplateNode nodeTemplate suffix' s').1 = Returned copy' →
  (∃ node node', Template_Node copy = Some node ∧ Template_Node copy' = Some node'
                 ∧ Node_Name (object node) ≠ Node_Name (object node'))
  ∧ Forall2 (λ pod pod', Pod_Name (object pod) ≠ Pod_Name (object pod'))
            (Template_Pods copy) (Template_Pods copy').
Proof.
  intros Hne. destruct (Template_Node nodeTemplate) as [template|] eqn:Hnode.
  - rewrite !(DeepCopyTemplateNode_spec _ template) by done. simpl.
    intros [= <-] [= <-]. simpl. split.
    + eexists _, _. split; [done|]. split; [done|]. simpl.
      intros H. by apply suffixed_inj in H.
    + generalize ((NewUUID s).2) ((NewUUID s').2).
      generalize (Template_Pods nodeTemplate). clear -Hne.
      intros podInfos. induction podInfos as [|podInfo rest IH]; intros t t'.
      * constructor.
      * simpl. constructor; [|apply IH]. simpl.
        intros H. by apply suffixed_inj in H.
  - unfold DeepCopyTemplateNode, mbind, Gen_bind, nonNil. by rewrite Hnode.
Qed.

End WithUUID.

Section OnThePool.
Import Instances.

Lemma DeepCopyTemplateNode_node_witness :
  ∃ copy node,
    (DeepCopyTemplateNode poolTemplate "0" 7%nat).1 = Returned copy
    ∧ Template_Node copy = Some node
    ∧ UID node = "uid-7"
    ∧ Node_Name (object node) = "pool-0"
    ∧ (list_to_map (Labels (Node_ObjectMeta (object node))) : gmap string string)
        !! "kubernetes.io/hostname" = Some "pool-0".
Proof.
  destruct (DeepCopyTemplateNode_node (U := counter) poolTemplate _ "0" 7%nat eq_refl)
    as (copy & node & Hcopy & Hnode & Huid & Hname & Hlabels & _).
  exists copy, node. split; [exact Hcopy|]. split; [exact Hnode|].
  split; [exact Huid|]. split; [exact Hname|].
  rewrite Hlabels, lookup_insert_eq. by rewrite Hname.
Defined.

Lemma DeepCopyTemplateNode_pods_witness :
  ∃ copy,
    (DeepCopyTemplateNode poolTemplate "0" 7%nat).1 = Returned copy
    ∧ length (Template_Pods copy) = 2%nat
    ∧ UID <$> Template_Pods copy = ["uid-8"; "uid-9"].
Proof.
  destruct (DeepCopyTemplateNode_pods (U := counter) poolTemplate _ "0" 7%nat eq_refl)
    as (copy & Hcopy & Hlen & Huids & _).
  exists copy. split; [exact Hcopy|]. split; [exact Hlen | exact Huids].
Defined.

Lemma DeepCopyTemplateNode_suffixes_separate_witness :
  ∃ copy copy',
    (DeepCopyTemplateNode poolTemplate "0" 0%nat).1 = Returned copy
    ∧ (DeepCopyTemplateNode poolTemplate "1" 3%nat).1 = Returned copy'
    ∧ Forall2 (λ pod pod', Pod_Name (object pod) ≠ Pod_Name (object pod'))
              (Template_Pods copy) (Template_Pods copy').
Proof.
  eexists _, _. split; [reflexivity|]. split; [reflexivity|].
  refine (proj2 (DeepCopyTemplateNode_suffixes_separate (U := counter)
                   poolTemplate "0" "1" 0%nat 3%nat _ _ _ eq_refl eq_refl)).
  discriminate.
Defined.

End OnThePool.
End SchedulerTemplatesFacts.

(** ** utils/scheduler: loading the scheduler configuration *)

Module SchedulerConfigFacts.
Import SchedulerConfig.

Section WithLib.
Context {T : SchemeTypes} {L : ConfigLib}.

(** X12. [ConfigFromPath] returns either a configuration and no error or
    an error and no configuration.  It returns a configuration exactly
    when the file could be read and decoded into a scheduler configuration
    that validates once its API version is set to the group-version the
    decoder found; the configuration returned is that one. *)
Theorem ConfigFromPath_success path :
  ((∃ cfg, ConfigFromPath path = (Some cfg, None))
   ∨ (∃ err, ConfigFromPath path = (None, Some err)))
  ∧ ∀ cfg, ConfigFromPath path = (Some cfg, None) ↔
      ∃ data decoded gvk,
        os_ReadFile path = Ok data
        ∧ Decode data = Ok (ConfigObject decoded, gvk)
        ∧ cfg = mkKubeSchedulerConfiguration (GroupVersion_String gvk) (Config_Body decoded)
        ∧ ValidateKubeSchedulerConfiguration cfg = None.
Proof.
  unfold ConfigFromPath, set_APIVersion.
  destruct (os_ReadFile path) as [data|err].
  - destruct (Decode data) as [[[decoded|other] gvk]|err] eqn:Hdec.
    + destruct (ValidateKubeSchedulerConfiguration _) as [err|] eqn:Hv.
      * split; [right; by eexists|]. intros cfg. split; [done|].
        intros (d & c & g & [= <-] & Hc & -> & Hv').
        rewrite Hdec in Hc. simplify_eq.
      * split; [left; by eexists|]. intros cfg. split.
        -- intros [= <-]. by exists data, decoded, gvk.
        -- intros (d & c & g & [= <-] & Hc & -> & _).
           rewrite Hdec in Hc. by simplify_eq.
    + split; [right; by eexists|]. intros cfg. split; [done|].
      intros (d & c & g & [= <-] & Hc & _). rewrite Hdec in Hc. by simplify_eq.
    + split; [right; by eexists|]. intros cfg. split; [done|].
      intros (d & c & g & [= <-] & Hc & _). rewrite Hdec in Hc. by simplify_eq.
  - split; [right; by eexists|]. intros cfg. split; [done|].
    intros (d & c & g & Hd & _). done.
Qed.

(** X13. An error of [ConfigFromPath] starts with the constant of the
    first stage that failed (reading, decoding, the type assertion,
    validation), and the constant it starts with tells the four stages
    apart. *)
Theorem ConfigFromPath_error_stage path :
  match os_ReadFile path with
  | Failed err =>
    ConfigFromPath path = (None, Some (schedulerConfigLoadErr +:+ ": " +:+ err))
    ∧ stageOfMessage (schedulerConfigLoadErr +:+ ": " +:+ err) = Some LoadStage
  | Ok data =>
    match Decode data with
    | Failed err =>
      ConfigFromPath path = (None, Some (schedulerConfigDecodeErr +:+ ": " +:+ err))
      ∧ stageOfMessage (schedulerConfigDecodeErr +:+ ": " +:+ err) = Some DecodeStage
    | Ok (ForeignObject _, gvk) =>
      ∃ message, ConfigFromPath path = (None, Some message)
                 ∧ stageOfMessage message = Some TypeCastStage
    | Ok (ConfigObject decoded, gvk) =>
      ∀ err,
        ValidateKubeSchedulerConfiguration
          (mkKubeSchedulerConfiguration (GroupVersion_String gvk) (Config_Body decoded))
        = Some err →
        ConfigFromPath path = (None, Some (schedulerConfigInvalidErr +:+ ": " +:+ err))
        ∧ stageOfMessage (schedulerConfigInvalidErr +:+ ": " +:+ err) = Some ValidationStage
    end
  end.
Proof.
  unfold ConfigFromPath, set_APIVersion.
  destruct (os_ReadFile path) as [data|err]; [|done].
  destruct (Decode data) as [[[decoded|other] gvk]|err]; [| |done].
  - intros err Hv. by rewrite Hv.
  - by eexists.
Qed.

End WithLib.

Section OnTheToyScheme.
Import Instances.

Lemma ConfigFromPath_success_witness :
  ConfigFromPath "/etc/scheduler.yaml"
  = (Some (mkKubeSchedulerConfiguration "kubescheduler.config.k8s.io/v1" 16), None)
  ∧ ValidateKubeSchedulerConfiguration
      (mkKubeSchedulerConfiguration "kubescheduler.config.k8s.io/v1" 16) = None.
Proof.
  assert (ConfigFromPath "/etc/scheduler.yaml"
          = (Some (mkKubeSchedulerConfiguration "kubescheduler.config.k8s.io/v1" 16), None))
    as Hrun by reflexivity.
  split; [exact Hrun|].
  destruct (proj2 (ConfigFromPath_success (L := toyConfigLib) "/etc/scheduler.yaml")
              (@mkKubeSchedulerConfiguration toyScheme "kubescheduler.config.k8s.io/v1" 16))
    as [Hfwd _].
  destruct (Hfwd Hrun) as (data & decoded & gvk & _ & _ & _ & Hvalid).
  exact Hvalid.
Defined.

Lemma ConfigFromPath_error_stage_witness :
  (∃ message, ConfigFromPath "/etc/missing.yaml" = (None, Some message)
              ∧ stageOfMessage message = Some LoadStage)
  ∧ (∃ message, ConfigFromPath "/etc/empty.yaml" = (None, Some message)
                ∧ stageOfMessage message = Some DecodeStage)
  ∧ (∃ message, ConfigFromPath "/etc/pod.yaml" = (None, Some message)
                ∧ stageOfMessage message = Some TypeCastStage)
  ∧ (∃ message, ConfigFromPath "/etc/negative.yaml" = (None, Some message)
                ∧ stageOfMessage message = Some ValidationStage).
Proof.
  split; [|split; [|split]].
  - eexists. exact (ConfigFromPath_error_stage (L := toyConfigLib) "/etc/missing.yaml").
  - eexists. exact (ConfigFromPath_error_stage (L := toyConfigLib) "/etc/empty.yaml").
  - exact (ConfigFromPath_error_stage (L := toyConfigLib) "/etc/pod.yaml").
  - eexists.
    exact (ConfigFromPath_error_stage (L := toyConfigLib) "/etc/negative.yaml" _ eq_refl).
Defined.

End OnTheToyScheme.
End SchedulerConfigFacts.

(** ** simulator: how a run of the checker unfolds *)

Module SimulatorRunFacts.
Import scheduler_framework Simulator SimulatorViews SimulatorFacts.

Section WithFramework.
Context {R : GoMapRange} {F : Framework}.
Implicit Types (p : SchedulerBasedPredicateChecker) (pod : Pod)
  (nodeInfo : NodeInfo) (nodeInfos : gmap string NodeInfo).

Lemma filterCallsOn_cons pod (e : string * NodeInfo) entries :
  filterCallsOn pod (e :: entries) =
    if schedulableb e.2 then FilterCall pod e.2 :: filterCallsOn pod entries
    else filterCallsOn pod entries.
Proof.
  unfold filterCallsOn. destruct (schedulableb e.2) eqn:Hs.
  - by rewrite filter_cons_True.
  - rewrite filter_cons_False; [done|]. by rewrite Hs.
Qed.

Lemma schedulableb_true nodeInfo : schedulableb nodeInfo = true ↔ isSchedulable nodeInfo.
Proof.
  unfold schedulableb, isSchedulable. destruct (NodeInfo_Node nodeInfo) as [node|].
  - destruct (Unschedulable (Node_Spec node)) eqn:Hf; simpl.
    + split; [done|]. intros (n & [= <-] & ?). congruence.
    + split; [|done]. intros _. by exists node.
  - split; [done|]. by intros (n & ? & _).
Qed.

(** The three ways the loop over the candidates can end: at the first
    candidate that fits, at the first candidate without a Node, or at the
    end of the candidates; with the filter calls made on the way. *)
Lemma FitsAny_range_run p state pod entries :
  (∃ before name nodeInfo after,
      entries = before ++ (name, nodeInfo) :: after
      ∧ Forall (passedOver p state pod) before
      ∧ isSchedulable nodeInfo ∧ everyFilterPasses p state pod nodeInfo
      ∧ FitsAny_range p state pod entries
        = (Returned (name, None), filterCallsOn pod before ++ [FilterCall pod nodeInfo]))
  ∨ (∃ before name nodeInfo after,
      entries = before ++ (name, nodeInfo) :: after
      ∧ Forall (passedOver p state pod) before
      ∧ NodeInfo_Node nodeInfo = None
      ∧ FitsAny_range p state pod entries = (NilPointerPanic, filterCallsOn pod before))
  ∨ (Forall (passedOver p state pod) entries
     ∧ FitsAny_range p state pod entries
       = (Returned ("", Some (noFitError pod)), filterCallsOn pod entries)).
Proof.
  induction entries as [|[k ni] rest IH].
  - right. right. split; [constructor | done].
  - rewrite FitsAny_range_cons.
    destruct (NodeInfo_Node ni) as [node|] eqn:Hnode.
    + assert (∀ (Hskip : ¬ (isSchedulable ni ∧ everyFilterPasses p state pod ni)),
                passedOver p state pod (k, ni)) as Hover.
      { intros Hskip. split; [simpl; by rewrite Hnode | done]. }
      destruct (Unschedulable (Node_Spec node)) eqn:Hflag.
      * assert (passedOver p state pod (k, ni)) as Hk.
        { apply Hover. intros [(n & Hn & Hf) _]. congruence. }
        assert (∀ l, filterCallsOn pod ((k, ni) :: l) = filterCallsOn pod l) as Hcalls.
        { intros l. rewrite filterCallsOn_cons. unfold schedulableb. simpl.
          by rewrite Hnode, Hflag. }
        destruct IH as [(b & n & i & a & -> & Hb & Hs & Hp & Hrun)
                       |[(b & n & i & a & -> & Hb & Hnil & Hrun)
                        |(Hall & Hrun)]].
        -- left. exists ((k, ni) :: b), n, i, a.
           split; [done|]. split; [by constructor|]. split; [done|]. split; [done|].
           by rewrite Hrun, Hcalls.
        -- right. left. exists ((k, ni) :: b), n, i, a.
           split; [done|]. split; [by constructor|]. split; [done|].
           by rewrite Hrun, Hcalls.
        -- right. right. split; [by constructor|]. by rewrite Hrun, Hcalls.
      * assert (isSchedulable ni) as Hsched by (by exists node).
        assert (∀ l, filterCallsOn pod ((k, ni) :: l)
                     = FilterCall pod ni :: filterCallsOn pod l) as Hcalls.
        { intros l. rewrite filterCallsOn_cons. unfold schedulableb. simpl.
          by rewrite Hnode, Hflag. }
        destruct (allSucceed _) eqn:Hpass.
        -- left. exists [], k, ni, rest. split; [done|]. split; [constructor|].
           split; [done|]. split; [by apply allSucceed_everyFilterPasses | done].
        -- assert (passedOver p state pod (k, ni)) as Hk.
           { apply Hover. intros [_ Hp]. apply allSucceed_everyFilterPasses in Hp.
             congruence. }
           destruct IH as [(b & n & i & a & -> & Hb & Hs & Hp & Hrun)
                          |[(b & n & i & a & -> & Hb & Hnil & Hrun)
                           |(Hall & Hrun)]].
           ++ left. exists ((k, ni) :: b), n, i, a.
              split; [done|]. split; [by constructor|]. split; [done|]. split; [done|].
              by rewrite Hrun, Hcalls.
           ++ right. left. exists ((k, ni) :: b), n, i, a.
              split; [done|]. split; [by constructor|]. split; [done|].
              by rewrite Hrun, Hcalls.
           ++ right. right. split; [by constructor|]. by rewrite Hrun, Hcalls.
    + right. left. exists [], k, ni, rest.
      split; [done|]. split; [constructor|]. done.
Qed.

(** X14. When [FitsAny] returns a name, that name is the first candidate
    in visiting order that is schedulable and passes every filter; all
    candidates before it carry a Node and were passed over; the filters
    ran on the schedulable ones among those and then on the returned
    candidate, and on no candidate after it. *)
Theorem FitsAny_returns_first_fit p pod nodeInfos name :
  outcome (FitsAny p pod nodeInfos) = Returned (name, None) →
  ∃ before nodeInfo after,
    goRange nodeInfos = before ++ (name, nodeInfo) :: after
    ∧ Forall (passedOver p (preFilterResult p pod).2 pod) before
    ∧ isSchedulable nodeInfo
    ∧ everyFilterPasses p (preFilterResult p pod).2 pod nodeInfo
    ∧ calls (FitsAny p pod nodeInfos)
      = PreFilterCall pod :: filterCallsOn pod before ++ [FilterCall pod nodeInfo].
Proof.
  rewrite FitsAny_unfold. destruct (preFilterResult p pod) as [st state]. simpl.
  destruct (IsSuccess st); unfold outcome, calls; simpl; [|done].
  destruct (FitsAny_range_run p state pod (goRange nodeInfos))
    as [(b & n & i & a & Heq & Hb & Hs & Hp & Hrun)
       |[(b & n & i & a & Heq & Hb & Hnil & Hrun)
        |(Hall & Hrun)]]; rewrite Hrun; simpl; [|done|done].
  intros [= ->]. by exists b, i, a.
Qed.

(** X15. [FitsAny] panics only after a passing pre-check, on reaching a
    candidate of the map that carries no Node, every candidate visited
    before it having been passed over. *)
Theorem FitsAny_panics_on_missing_node p pod nodeInfos :
  outcome (FitsAny p pod nodeInfos) = NilPointerPanic →
  IsSuccess (preFilterResult p pod).1 = true
  ∧ ∃ before name nodeInfo after,
      goRange nodeInfos = before ++ (name, nodeInfo) :: after
      ∧ nodeInfos !! name = Some nodeInfo
      ∧ NodeInfo_Node nodeInfo = None
      ∧ Forall (passedOver p (preFilterResult p pod).2 pod) before.
Proof.
  rewrite FitsAny_unfold. destruct (preFilterResult p pod) as [st state]. simpl.
  destruct (IsSuccess st); unfold outcome; simpl; [|done].
  destruct (FitsAny_range_run p state pod (goRange nodeInfos))
    as [(b & n & i & a & Heq & Hb & Hs & Hp & Hrun)
       |[(b & n & i & a & Heq & Hb & Hnil & Hrun)
        |(Hall & Hrun)]]; rewrite Hrun; simpl; [done| |done].
  intros _. split; [done|]. exists b, n, i, a. split; [done|].
  split; [|done]. apply elem_of_goRange. rewrite Heq.
  apply elem_of_app. right. apply list_elem_of_here.
Qed.

(** X16. When the pre-check rejects the pod, [FitsAny] returns the
    pre-check error for every map of candidates, even one with candidates
    that carry no Node, and calls nothing but the pre-check. *)
Theorem FitsAny_prefilter_rejection p pod :
  IsSuccess (preFilterResult p pod).1 = false →
  ∀ nodeInfos,
    FitsAny p pod nodeInfos =
      (Returned ("", Some ("error running pre filter plugins for pod "
                           +:+ Pod_Name pod +:+ "; "
                           +:+ Message (preFilterResult p pod).1)),
       [PreFilterCall pod]).
Proof.
  intros Hrej nodeInfos. rewrite FitsAny_unfold.
  destruct (preFilterResult p pod) as [st state]. simpl in *. by rewrite Hrej.
Qed.

(** X18. When [FitsAny] fails although the pre-check passed, the error is
    the aggregate one, every candidate carries a Node and was passed over,
    and the filters ran exactly on the schedulable candidates, each once,
    in visiting order. *)
Theorem FitsAny_no_fit_tries_every_candidate p pod nodeInfos name err :
  IsSuccess (preFilterResult p pod).1 = true →
  outcome (FitsAny p pod nodeInfos) = Returned (name, Some err) →
  name = "" ∧ err = "cannot put pod " +:+ Pod_Name pod +:+ " on any node"
  ∧ Forall (passedOver p (preFilterResult p pod).2 pod) (goRange nodeInfos)
  ∧ calls (FitsAny p pod nodeInfos)
    = PreFilterCall pod :: filterCallsOn pod (goRange nodeInfos).
Proof.
  rewrite FitsAny_unfold. destruct (preFilterResult p pod) as [st state]. simpl.
  intros ->. unfold outcome, calls. simpl.
  destruct (FitsAny_range_run p state pod (goRange nodeInfos))
    as [(b & n & i & a & Heq & Hb & Hs & Hp & Hrun)
       |[(b & n & i & a & Heq & Hb & Hnil & Hrun)
        |(Hall & Hrun)]]; rewrite Hrun; simpl; [done|done|].
  by intros [= <- <-].
Qed.

(** Whether [FitsAny] returns a name, read off the map alone. *)
Lemma FitsAny_returns_iff p pod nodeInfos :
  (∀ name nodeInfo, nodeInfos !! name = Some nodeInfo →
     is_Some (NodeInfo_Node nodeInfo)) →
  (∃ name, outcome (FitsAny p pod nodeInfos) = Returned (name, None)) ↔
  IsSuccess (preFilterResult p pod).1 = true
  ∧ ∃ name nodeInfo, nodeInfos !! name = Some nodeInfo
                     ∧ isSchedulable nodeInfo
                     ∧ everyFilterPasses p (preFilterResult p pod).2 pod nodeInfo.
Proof.
  intros Hnodes. split.
  - intros [name H]. apply FitsAny_returned in H as (ni & ? & ? & ? & ?).
    split; [done|]. by exists name, ni.
  - intros [Hpre (name & ni & Hl & Hs & Hp)]. rewrite FitsAny_unfold.
    destruct (preFilterResult p pod) as [st state]. simpl in *. rewrite Hpre.
    unfold outcome. simpl.
    destruct (FitsAny_range_run p state pod (goRange nodeInfos))
      as [(b & n & i & a & Heq & Hb & Hs' & Hp' & Hrun)
         |[(b & n & i & a & Heq & Hb & Hnil & Hrun)
          |(Hall & Hrun)]]; rewrite Hrun; simpl.
    + by exists n.
    + assert (nodeInfos !! n = Some i) as Hi.
      { apply elem_of_goRange. rewrite Heq. apply elem_of_app. right.
        apply list_elem_of_here. }
      destruct (Hnodes n i Hi) as [? ?]. congruence.
    + rewrite Forall_forall in Hall.
      destruct (Hall (name, ni)) as [_ Hno]; [by apply elem_of_goRange|].
      by destruct Hno.
Qed.

End WithFramework.

(** X17. On a map all of whose candidates carry a Node, whether [FitsAny]
    finds a node does not depend on the order in which the candidates and
    the filter statuses are visited; only which fitting node is returned
    can. *)
Theorem FitsAny_success_any_order (R1 R2 : GoMapRange) {F : Framework}
    (p : SchedulerBasedPredicateChecker) pod (nodeInfos : gmap string NodeInfo) :
  (∀ name nodeInfo, nodeInfos !! name = Some nodeInfo →
     is_Some (NodeInfo_Node nodeInfo)) →
  (∃ name, outcome (FitsAny (R := R1) p pod nodeInfos) = Returned (name, None)) ↔
  (∃ name, outcome (FitsAny (R := R2) p pod nodeInfos) = Returned (name, None)).
Proof.
  intros Hnodes.
  by rewrite (FitsAny_returns_iff (R := R1)), (FitsAny_returns_iff (R := R2)).
Qed.

Section OnTheChain.
Import Instances.

Lemma FitsAny_returns_first_fit_witness :
  let pod := cpuPod "w" "" 100 in
  ∃ before nodeInfo after,
    goRange threeNodes = before ++ ("n2", nodeInfo) :: after
    ∧ Forall (passedOver emptyChecker (preFilterResult emptyChecker pod).2 pod) before
    ∧ calls (FitsAny emptyChecker pod threeNodes)
      = PreFilterCall pod :: filterCallsOn pod before ++ [FilterCall pod nodeInfo].
Proof.
  intros pod.
  assert (outcome (FitsAny emptyChecker pod threeNodes) = Returned ("n2", None)) as Hout
    by (vm_compute; reflexivity).
  destruct (FitsAny_returns_first_fit (R := sortedRange) emptyChecker pod threeNodes "n2" Hout)
    as (before & ni & after & Heq & Hbefore & _ & _ & Hcalls).
  exists before, ni, after. split; [exact Heq|]. split; [exact Hbefore | exact Hcalls].
Defined.

Lemma FitsAny_panics_on_missing_node_witness :
  let pod := cpuPod "w" "" 100 in
  outcome (FitsAny emptyChecker pod {[ "n0" := NewNodeInfo ]}) = NilPointerPanic
  ∧ ∃ name nodeInfo, ({[ "n0" := NewNodeInfo ]} : gmap string NodeInfo) !! name = Some nodeInfo
                     ∧ NodeInfo_Node nodeInfo = None.
Proof.
  intros pod.
  assert (outcome (FitsAny emptyChecker pod {[ "n0" := NewNodeInfo ]}) = NilPointerPanic)
    as Hout by (vm_compute; reflexivity).
  split; [exact Hout|].
  destruct (FitsAny_panics_on_missing_node (R := sortedRange) emptyChecker pod _ Hout)
    as (_ & _ & name & ni & _ & _ & Hl & Hnil & _).
  exists name, ni. split; [exact Hl | exact Hnil].
Defined.

Lemma FitsAny_prefilter_rejection_witness :
  let malformed := cpuPod "w" "" (-1) in
  IsSuccess (preFilterResult emptyChecker malformed).1 = false
  ∧ FitsAny emptyChecker malformed {[ "n0" := NewNodeInfo ]}
    = FitsAny emptyChecker malformed threeNodes.
Proof.
  intros malformed. split; [reflexivity|].
  pose proof (FitsAny_prefilter_rejection (R := sortedRange)
                emptyChecker malformed eq_refl) as Hsame.
  rewrite (Hsame {[ "n0" := NewNodeInfo ]}), (Hsame threeNodes). reflexivity.
Defined.

Lemma FitsAny_no_fit_tries_every_candidate_witness :
  let pod := cpuPod "w" "" 100 in
  outcome (FitsAny emptyChecker pod cordonedOnly)
    = Returned ("", Some "cannot put pod w on any node")
  ∧ calls (FitsAny emptyChecker pod cordonedOnly)
    = PreFilterCall pod :: filterCallsOn pod (goRange cordonedOnly).
Proof.
  intros pod.
  assert (outcome (FitsAny emptyChecker pod cordonedOnly)
          = Returned ("", Some "cannot put pod w on any node")) as Hout
    by (vm_compute; reflexivity).
  split; [exact Hout|].
  destruct (FitsAny_no_fit_tries_every_candidate (R := sortedRange)
              emptyChecker pod cordonedOnly "" _ eq_refl Hout) as (_ & _ & _ & Hcalls).
  exact Hcalls.
Defined.

Lemma FitsAny_success_any_order_witness :
  let pod := cpuPod "w" "" 100 in
  (∃ name, outcome (FitsAny (R := sortedRange) emptyChecker pod fourNodes)
           = Returned (name, None))
  ∧ (∃ name, outcome (FitsAny (R := reversedRange) emptyChecker pod fourNodes)
             = Returned (name, None)).
Proof.
  intros pod.
  assert (∃ name, outcome (FitsAny (R := sortedRange) emptyChecker pod fourNodes)
                  = Returned (name, None)) as Hsorted
    by (exists "n2"; vm_compute; reflexivity).
  split; [exact Hsorted|].
  apply (FitsAny_success_any_order sortedRange reversedRange emptyChecker pod fourNodes);
    [|exact Hsorted].
  intros name nodeInfo H. unfold fourNodes, threeNodes in H.
  apply lookup_insert_Some in H as [[_ <-]|[_ H]]; [by eexists|].
  apply lookup_insert_Some in H as [[_ <-]|[_ H]]; [by eexists|].
  apply lookup_insert_Some in H as [[_ <-]|[_ H]]; [by eexists|].
  apply lookup_singleton_Some in H as [_ <-]. by eexists.
Defined.

End OnTheChain.
End SimulatorRunFacts.

(** ** simulator: what a rejection reports, and refreshing twice *)

Module SimulatorRejectionFacts.
Import scheduler_framework Simulator SimulatorViews SimulatorFacts.

Section WithFramework.
Context {R : GoMapRange} {F : Framework}.
Implicit Types (p : SchedulerBasedPredicateChecker) (pod : Pod)
  (nodeInfo : NodeInfo) (nodeInfos : gmap string NodeInfo).

Lemma buildDebugInfo_panics filterName nodeInfo :
  outcome (buildDebugInfo filterName nodeInfo) = NilPointerPanic →
  filterName = "TaintToleration" ∧ NodeInfo_Node nodeInfo = None.
Proof.
  unfold buildDebugInfo. case_decide as Hn; [|done].
  by destruct (NodeInfo_Node nodeInfo).
Qed.

Lemma CheckPredicates_range_panics (l : list (string * Status)) nodeInfo :
  outcome (CheckPredicates_range l nodeInfo) = NilPointerPanic →
  NodeInfo_Node nodeInfo = None
  ∧ ∃ st, ("TaintToleration", st) ∈ l ∧ IsSuccess st = false.
Proof.
  induction l as [|[k st] l IH]; [done|]. simpl.
  destruct (IsSuccess st) eqn:Hs; simpl.
  - intros H. destruct (IH H) as (Hnil & st' & Hin & Hf).
    split; [done|]. exists st'. split; [by apply list_elem_of_further | done].
  - pose proof (buildDebugInfo_panics k nodeInfo) as Hpanic.
    destruct (IsUnschedulable st);
      destruct (buildDebugInfo k nodeInfo) as [[debug|] t]; simpl; try done;
      intros _; destruct (Hpanic eq_refl) as [-> Hnil];
      (split; [done|]); exists st; (split; [apply list_elem_of_here | done]).
Qed.

(** With a single failing status in the list, the loop reports that one,
    wherever it stands. *)
Lemma CheckPredicates_range_single (l : list (string * Status)) nodeInfo k st :
  (k, st) ∈ l →
  IsSuccess st = false →
  (∀ k' st', (k', st') ∈ l → IsSuccess st' = false → k' = k ∧ st' = st) →
  outcome (CheckPredicates_range l nodeInfo) =
    match outcome (buildDebugInfo k nodeInfo) with
    | Returned debug => Returned (Some (rejectionOf k st debug))
    | NilPointerPanic => NilPointerPanic
    end.
Proof.
  intros Hin Hfail Honly. induction l as [|[k' st'] l IH]; [by apply elem_of_nil in Hin|].
  simpl. destruct (IsSuccess st') eqn:Hs; simpl.
  - apply IH.
    + apply elem_of_cons in Hin as [[= <- <-]|Hin]; [congruence | done].
    + intros k'' st'' Hin'' Hf. apply Honly; [by apply list_elem_of_further | done].
  - destruct (Honly k' st' (list_elem_of_here _ _) Hs) as [-> ->].
    unfold rejectionOf.
    destruct (IsUnschedulable st);
      by destruct (buildDebugInfo k nodeInfo) as [[debug|] t].
Qed.

(** X19. A rejection returned by [CheckPredicates] after a passing
    pre-check names a plugin whose status the framework reported as
    failing; it is classified as not-schedulable exactly when that status
    is unschedulable, and carries the message and the reasons of that
    status. *)
Theorem CheckPredicates_rejection_reports_failing_status p pod nodeInfo e :
  IsSuccess (preFilterResult p pod).1 = true →
  outcome (CheckPredicates p pod nodeInfo) = Returned (Some e) →
  ∃ filterStatus,
    RunFilterPlugins (delegate (delegatingSharedLister p)) (preFilterResult p pod).2
      pod nodeInfo !! predicateName e = Some filterStatus
    ∧ IsSuccess filterStatus = false
    ∧ (errorType e = NotSchedulablePredicateError ↔ IsUnschedulable filterStatus = true)
    ∧ errorMessage e = Message filterStatus
    ∧ reasons e = Reasons filterStatus.
Proof.
  rewrite CheckPredicates_unfold. destruct (preFilterResult p pod) as [st state]. simpl.
  intros ->. unfold outcome. simpl. intros H.
  apply CheckPredicates_range_rejected in H as (st' & debug & Hin & Hf & _ & ->).
  exists st'. apply elem_of_goRange in Hin. simpl. split; [done|]. split; [done|].
  split; [|done]. by destruct (IsUnschedulable st').
Qed.

(** X20. When the framework reports a single failing status, as it does
    when it stops at the first rejection, [CheckPredicates] reports that
    plugin whatever the order in which the statuses are visited; it panics
    instead only if the plugin is TaintToleration and the node info
    carries no Node. *)
Theorem CheckPredicates_single_failure p pod nodeInfo filterName filterStatus :
  IsSuccess (preFilterResult p pod).1 = true →
  RunFilterPlugins (delegate (delegatingSharedLister p)) (preFilterResult p pod).2
    pod nodeInfo !! filterName = Some filterStatus →
  IsSuccess filterStatus = false →
  (∀ name status,
     RunFilterPlugins (delegate (delegatingSharedLister p)) (preFilterResult p pod).2
       pod nodeInfo !! name = Some status →
     IsSuccess status = false → name = filterName) →
  outcome (CheckPredicates p pod nodeInfo) =
    if decide (filterName = "TaintToleration") then
      match NodeInfo_Node nodeInfo with
      | Some node =>
        Returned (Some (rejectionOf filterName filterStatus
                          ("taints on node: " +:+ GoSyntax_Taints (Taints (Node_Spec node)))))
      | None => NilPointerPanic
      end
    else Returned (Some (rejectionOf filterName filterStatus emptyString)).
Proof.
  rewrite CheckPredicates_unfold. destruct (preFilterResult p pod) as [st state]. simpl.
  intros -> Hl Hfail Honly. unfold outcome at 1. simpl.
  pose proof (CheckPredicates_range_single
    (goRange (RunFilterPlugins (delegate (delegatingSharedLister p)) state pod nodeInfo))
    nodeInfo filterName filterStatus) as Hsingle.
  unfold outcome at 1 in Hsingle. rewrite Hsingle.
  - unfold buildDebugInfo. case_decide; [|done].
    by destruct (NodeInfo_Node nodeInfo).
  - by apply elem_of_goRange.
  - done.
  - intros k' st' Hin Hf. apply elem_of_goRange in Hin.
    assert (k' = filterName) as -> by by eapply Honly. split; [done|]. congruence.
Qed.

(** X21. [CheckPredicates] panics only when the pre-check passed, the
    node info carries no Node and the framework reported a failing
    TaintToleration status; on a node info that carries a Node it always
    returns. *)
Theorem CheckPredicates_panics_on_taints_without_node p pod nodeInfo :
  outcome (CheckPredicates p pod nodeInfo) = NilPointerPanic →
  IsSuccess (preFilterResult p pod).1 = true
  ∧ NodeInfo_Node nodeInfo = None
  ∧ ∃ filterStatus,
      RunFilterPlugins (delegate (delegatingSharedLister p)) (preFilterResult p pod).2
        pod nodeInfo !! "TaintToleration" = Some filterStatus
      ∧ IsSuccess filterStatus = false.
Proof.
  rewrite CheckPredicates_unfold. destruct (preFilterResult p pod) as [st state]. simpl.
  destruct (IsSuccess st); unfold outcome; simpl; [|done].
  intros H. apply CheckPredicates_range_panics in H as (Hnil & st' & Hin & Hf).
  split; [done|]. split; [done|]. exists st'. by apply elem_of_goRange in Hin.
Qed.

(** X23. Refreshing twice in a row, the listers answering the same, is
    the same as refreshing once: the second call returns the same error
    (or none) and leaves the checker the first call produced; the lister
    fields are never written. *)
Theorem SnapshotClusterState_idempotent
    (CreateNodeInfoMap : list Pod → list Node → gmap string NodeInfo) p :
  SnapshotClusterState CreateNodeInfoMap (SnapshotClusterState CreateNodeInfoMap p).1
  = SnapshotClusterState CreateNodeInfoMap p
  ∧ nodeLister (SnapshotClusterState CreateNodeInfoMap p).1 = nodeLister p
  ∧ podLister (SnapshotClusterState CreateNodeInfoMap p).1 = podLister p.
Proof.
  unfold SnapshotClusterState.
  destruct (nodeLister p) as [nodes|err] eqn:Hn.
  - destruct (podLister p) as [pods|err] eqn:Hp; simpl.
    + done.
    + by rewrite Hn, Hp.
  - simpl. by rewrite Hn.
Qed.

End WithFramework.
Section OnTheChain.
Import Instances.

Lemma CheckPredicates_rejection_reports_failing_status_witness :
  let pod := cpuPod "w" "" 3000 in
  let nodeInfo := onNode (plainNode "n2" 2000) in
  ∃ e filterStatus,
    outcome (CheckPredicates emptyChecker pod nodeInfo) = Returned (Some e)
    ∧ predicateName e = "NodeResourcesFit"
    ∧ IsSuccess filterStatus = false
    ∧ errorMessage e = Message filterStatus.
Proof.
  intros pod nodeInfo.
  set (e := NewPredicateError NotSchedulablePredicateError "NodeResourcesFit"
              "Insufficient cpu" ["Insufficient cpu"] "").
  assert (outcome (CheckPredicates emptyChecker pod nodeInfo) = Returned (Some e))
    as Hout by (vm_compute; reflexivity).
  destruct (CheckPredicates_rejection_reports_failing_status (R := sortedRange)
              emptyChecker pod nodeInfo e eq_refl Hout)
    as (filterStatus & _ & Hfail & _ & Hmsg & _).
  exists e, filterStatus. split; [exact Hout|]. split; [reflexivity|].
  split; [exact Hfail | exact Hmsg].
Defined.

Lemma CheckPredicates_single_failure_witness :
  let pod := cpuPod "w" "" 100 in
  let nodeInfo := onNode (taintedNode "n3" 2000) in
  let status := mkStatus StatusUnschedulableAndUnresolvable
                  ["node(s) had taints that the pod didn't tolerate"] in
  outcome (CheckPredicates (R := reversedRange) emptyChecker pod nodeInfo)
  = Returned (Some (rejectionOf "TaintToleration" status
                      ("taints on node: " +:+ showTaints [dedicated]))).
Proof.
  intros pod nodeInfo status.
  assert (RunFilterPlugins (delegate (delegatingSharedLister emptyChecker))
            (preFilterResult emptyChecker pod).2 pod nodeInfo
          = {[ "TaintToleration" := status ]}) as Hmap by (vm_compute; reflexivity).
  rewrite (CheckPredicates_single_failure (R := reversedRange) emptyChecker pod nodeInfo
             "TaintToleration" status).
  - vm_compute. reflexivity.
  - vm_compute. reflexivity.
  - rewrite Hmap. apply lookup_singleton_eq.
  - vm_compute. reflexivity.
  - intros name st H _. rewrite Hmap in H.
    by apply lookup_singleton_Some in H as [<- _].
Defined.

Lemma CheckPredicates_panics_on_taints_without_node_witness :
  let pod := cpuPod "w" "" 100 in
  outcome (CheckPredicates taintsOnlyChecker pod NewNodeInfo) = NilPointerPanic
  ∧ ∃ filterStatus,
      runChain [taintToleration] pod NewNodeInfo !! "TaintToleration" = Some filterStatus
      ∧ IsSuccess filterStatus = false.
Proof.
  intros pod.
  assert (outcome (CheckPredicates taintsOnlyChecker pod NewNodeInfo) = NilPointerPanic)
    as Hout by (vm_compute; reflexivity).
  split; [exact Hout|].
  destruct (CheckPredicates_panics_on_taints_without_node (R := sortedRange)
              taintsOnlyChecker pod NewNodeInfo Hout) as (_ & _ & st & Hl & Hf).
  exists st. split; [exact Hl | exact Hf].
Defined.

End OnTheChain.
End SimulatorRejectionFacts.

(** ** daemonset: further properties of the simulation *)

Module DaemonsetRunFacts.
Import Simulator Daemonset DaemonsetFacts.

Section WithRand.
Context {RS : RandSource} {P : PredicateChecker}.

Lemma GetDaemonSetPodsForNode_spec nodeInfo node daemonsets clusterSnapshot s :
  NodeInfo_Node nodeInfo = Some node →
  AddNodeWithPods NewBasicClusterSnapshot (NodeInfo_Node nodeInfo)
                  (NodeInfo_Pods nodeInfo) = (clusterSnapshot, None) →
  GetDaemonSetPodsForNode nodeInfo daemonsets s =
    (Returned (filter (λ pod, fitsNode clusterSnapshot (Node_Name node) pod = true)
                      (synthesize daemonsets (Node_Name node) s),
               None),
     draws (length daemonsets) s).
Proof.
  intros Hnode Hadd. unfold GetDaemonSetPodsForNode. rewrite Hadd.
  unfold mbind, Rand_bind.
  by rewrite (GetDaemonSetPodsForNode_range_spec _ _ node).
Qed.

Lemma draws_add a b s : draws (a + b) s = draws b (draws a s).
Proof. revert s. induction a as [|a IH]; intros s; [done|]. simpl. apply IH. Qed.

Lemma synthesize_app ds1 ds2 nodeName s :
  synthesize (ds1 ++ ds2) nodeName s =
    synthesize ds1 nodeName s ++ synthesize ds2 nodeName (draws (length ds1) s).
Proof.
  revert s. induction ds1 as [|ds rest IH]; intros s; [done|].
  simpl. destruct (Int63 s) as [n s'] eqn:Hdraw. simpl. by rewrite IH.
Qed.

Lemma elem_of_synthesize pod daemonsets nodeName s :
  pod ∈ synthesize daemonsets nodeName s →
  ∃ ds n, ds ∈ daemonsets ∧ pod = syntheticPod ds nodeName n.
Proof.
  revert s. induction daemonsets as [|ds rest IH]; intros s.
  - intros H. by apply elem_of_nil in H.
  - simpl. destruct (Int63 s) as [n s']. intros H.
    apply elem_of_cons in H as [->|H].
    + exists ds, n. split; [apply list_elem_of_here | done].
    + destruct (IH _ H) as (ds' & n' & Hin & ->).
      exists ds', n'. split; [by apply list_elem_of_further | done].
Qed.

(** The synthetic pods that pass a test stem, one to one and in order,
    from a sublist of the daemonsets. *)
Lemma kept_daemonsets (Q : Pod → Prop) `{∀ pod, Decision (Q pod)}
    daemonsets nodeName s :
  ∃ kept, kept `sublist_of` daemonsets
          ∧ Forall2 (λ ds pod, Q pod ∧ ∃ n, pod = syntheticPod ds nodeName n)
                    kept (filter Q (synthesize daemonsets nodeName s)).
Proof.
  revert s. induction daemonsets as [|ds rest IH]; intros s.
  - exists []. split; [done | constructor].
  - simpl. destruct (Int63 s) as [n s'].
    destruct (IH s') as (kept & Hsub & Hall).
    destruct (decide (Q (syntheticPod ds nodeName n))) as [Hq|Hq].
    + exists (ds :: kept). rewrite filter_cons_True by done.
      split; [by apply sublist_skip|]. constructor; [|done].
      split; [done | by exists n].
    + exists kept. rewrite filter_cons_False by done.
      split; [by apply sublist_cons | done].
Qed.

(** X24. The pods [GetDaemonSetPodsForNode] returns stem, one to one and
    in order, from a sublist of the daemonsets, so each daemonset
    contributes at most one pod; each returned pod is pinned to the node,
    was accepted by the checker on the one-node snapshot, and carries the
    namespace, the template labels and the name prefix of its
    daemonset. *)
Theorem GetDaemonSetPodsForNode_result_pinned nodeInfo node daemonsets clusterSnapshot s :
  NodeInfo_Node nodeInfo = Some node →
  AddNodeWithPods NewBasicClusterSnapshot (NodeInfo_Node nodeInfo)
                  (NodeInfo_Pods nodeInfo) = (clusterSnapshot, None) →
  ∃ result kept,
    (GetDaemonSetPodsForNode nodeInfo daemonsets s).1 = Returned (result, None)
    ∧ kept `sublist_of` daemonsets
    ∧ Forall2 (λ ds pod,
         NodeName (Pod_Spec pod) = Node_Name node
         ∧ CheckPredicates clusterSnapshot pod
             (FakeNodeInfoForNodeName (Node_Name node)) = None
         ∧ Namespace (Pod_ObjectMeta pod) = Namespace (DaemonSet_ObjectMeta ds)
         ∧ Labels (Pod_ObjectMeta pod)
           = Labels (Template_ObjectMeta (DaemonSet_Template ds))
         ∧ ∃ n : Z,
             Pod_Name pod = Name (DaemonSet_ObjectMeta ds) +:+ "-pod-" +:+ pretty n)
       kept result.
Proof.
  intros Hnode Hadd.
  destruct (kept_daemonsets (λ pod, fitsNode clusterSnapshot (Node_Name node) pod = true)
              daemonsets (Node_Name node) s) as (kept & Hsub & Hall).
  eexists _, kept.
  rewrite (GetDaemonSetPodsForNode_spec _ node _ clusterSnapshot) by done. simpl.
  split; [done|]. split; [done|].
  eapply Forall2_impl; [exact Hall|].
  intros ds pod (Hfit & n & ->). split; [done|]. split.
  - unfold fitsNode in Hfit. by destruct (CheckPredicates _ _ _).
  - repeat split. by exists n.
Qed.


(** X26. Simulating a list of daemonsets is simulating a first part and
    then the rest from the generator state the first part left: the pods
    returned are those of the two runs, in that order, so a daemonset is
    kept or dropped independently of the others. *)
Theorem GetDaemonSetPodsForNode_app nodeInfo node ds1 ds2 clusterSnapshot s :
  NodeInfo_Node nodeInfo = Some node →
  AddNodeWithPods NewBasicClusterSnapshot (NodeInfo_Node nodeInfo)
                  (NodeInfo_Pods nodeInfo) = (clusterSnapshot, None) →
  ∃ result1 result2 s1 s2,
    GetDaemonSetPodsForNode nodeInfo ds1 s = (Returned (result1, None), s1)
    ∧ GetDaemonSetPodsForNode nodeInfo ds2 s1 = (Returned (result2, None), s2)
    ∧ GetDaemonSetPodsForNode nodeInfo (ds1 ++ ds2) s
      = (Returned (result1 ++ result2, None), s2).
Proof.
  intros Hnode Hadd. eexists _, _, _, _.
  rewrite !(GetDaemonSetPodsForNode_spec _ node _ clusterSnapshot) by done.
  split; [done|]. split; [done|].
  by rewrite synthesize_app, filter_app, length_app, draws_add.
Qed.

End WithRand.

Section OnTheChain.
Import Instances.

Lemma GetDaemonSetPodsForNode_result_pinned_witness :
  let nodeInfo := onNode (taintedNode "n3" 2000) in
  let daemonsets := [tolerant "logging"; intolerant "metrics"; tolerant "proxy"] in
  ∃ result kept,
    (GetDaemonSetPodsForNode nodeInfo daemonsets 7).1 = Returned (result, None)
    ∧ kept `sublist_of` daemonsets
    ∧ Forall2 (λ ds pod, NodeName (Pod_Spec pod) = "n3"
                         ∧ Namespace (Pod_ObjectMeta pod)
                           = Namespace (DaemonSet_ObjectMeta ds))
              kept result.
Proof.
  intros nodeInfo daemonsets.
  destruct (GetDaemonSetPodsForNode_result_pinned (RS := lcg) (P := chainChecker)
              nodeInfo (taintedNode "n3" 2000) daemonsets
              {[ "n3" := nodeInfo ]} 7 eq_refl eq_refl)
    as (result & kept & Hres & Hsub & Hall).
  exists result, kept. split; [exact Hres|]. split; [exact Hsub|].
  eapply Forall2_impl; [exact Hall|].
  intros ds pod (Hpin & _ & Hns & _). split; [exact Hpin | exact Hns].
Defined.


Lemma GetDaemonSetPodsForNode_app_witness :
  let nodeInfo := onNode (taintedNode "n3" 2000) in
  ∃ result1 result2 s1 s2,
    GetDaemonSetPodsForNode nodeInfo [tolerant "logging"; intolerant "metrics"] 7
      = (Returned (result1, None), s1)
    ∧ GetDaemonSetPodsForNode nodeInfo [tolerant "proxy"] s1 = (Returned (result2, None), s2)
    ∧ GetDaemonSetPodsForNode nodeInfo
        ([tolerant "logging"; intolerant "metrics"] ++ [tolerant "proxy"]) 7
      = (Returned (result1 ++ result2, None), s2).
Proof.
  intros nodeInfo.
  apply (GetDaemonSetPodsForNode_app (RS := lcg) (P := chainChecker)
           nodeInfo (taintedNode "n3" 2000) _ _ {[ "n3" := nodeInfo ]} 7);
    reflexivity.
Defined.

Lemma filter_all_of_length {A} (Q : A → Prop) `{∀ x, Decision (Q x)} (l : list A) :
  length (filter Q l) = length l → filter Q l = l.
Proof.
  induction l as [|x l IH]; [done|].
  destruct (decide (Q x)) as [Hq|Hq].
  - rewrite filter_cons_True by done. simpl. intros [= Hlen]. by rewrite IH.
  - rewrite filter_cons_False by done. simpl. intros Hlen.
    pose proof (length_filter Q l). lia.
Qed.

(** C6, as worded, fails on the code in three ways.  Seventeen daemonsets
    of one name, on the sixteen-step generator, give two pods of the same
    name, so the names are not fresh; a node template without a Node makes
    the simulator panic; and a node template the snapshot of the
    specification refuses (two of its pods ask for the same host port)
    makes it return that error and no list. *)
Lemma GetDaemonSetPodsForNode_not_as_worded :
  ¬ simulation_as_worded (RS := lcg) (P := chainChecker)
      (onNode (plainNode "n1" 2000000)) (replicate 17 (tolerant "logging")) 7
  ∧ ¬ simulation_as_worded (RS := lcg) (P := permissiveChecker)
        NewNodeInfo [tolerant "logging"] 7
  ∧ ¬ simulation_as_worded (RS := lcg) (P := specSnapshotChecker)
        busyTemplate [tolerant "logging"] 7.
Proof.
  split; [|split].
  - intros (node & pods & Hnode & Hall & Hnd & Hret).
    pose (r0 := synthesize (RS := lcg) (replicate 17 (tolerant "logging")) "n1" 7).
    assert ((GetDaemonSetPodsForNode (RS := lcg) (P := chainChecker)
               (onNode (plainNode "n1" 2000000)) (replicate 17 (tolerant "logging")) 7).1
            = Returned (r0, None))
      as Hrun by (vm_compute; reflexivity).
    assert (length r0 = 17%nat) as Hlen by (vm_compute; reflexivity).
    assert (Pod_Name <$> r0 !! 0%nat = Some "logging-pod-6") as Hfirst
      by (vm_compute; reflexivity).
    assert (Pod_Name <$> r0 !! 16%nat = Some "logging-pod-6") as Hlast
      by (vm_compute; reflexivity).
    clearbody r0.
    rewrite Hrun in Hret. injection Hret as Hret.
    apply Forall2_length in Hall. rewrite length_replicate in Hall.
    assert (pods = r0) as ->.
    { rewrite Hret. symmetry. apply filter_all_of_length.
      rewrite <- Hret. congruence. }
    assert (0%nat = 16%nat) as Heq; [|discriminate Heq].
    apply (proj1 (NoDup_alt _) Hnd 0%nat 16%nat "logging-pod-6").
    + rewrite list_lookup_fmap. exact Hfirst.
    + rewrite list_lookup_fmap. exact Hlast.
  - intros (node & pods & Hnode & Hall & Hnd & Hret).
    assert ((GetDaemonSetPodsForNode (RS := lcg) (P := permissiveChecker)
               NewNodeInfo [tolerant "logging"] 7).1 = NilPointerPanic)
      as Hrun by (vm_compute; reflexivity).
    rewrite Hrun in Hret. discriminate Hret.
  - intros (node & pods & Hnode & Hall & Hnd & Hret).
    assert ((GetDaemonSetPodsForNode (RS := lcg) (P := specSnapshotChecker)
               busyTemplate [tolerant "logging"] 7).1
            = Returned ([], Some "PortConflict"))
      as Hrun by (vm_compute; reflexivity).
    rewrite Hrun in Hret. discriminate Hret.
Qed.

End OnTheChain.
End DaemonsetRunFacts.
